(** * RAG evaluation platform: a shallow embedding of the React front end
      (agen-sme-eval-ui-react) and of the orchestration core it talks to.

    Sources embedded here:
    - [src/types/evaluation.ts]         (module [Evaluation])
    - [src/components/EvaluationForm.tsx] (module [EvaluationForm])
    - [src/services/api.ts]             (module [Api])
    - [src/App.tsx]                     (module [App])
    - [src/components/ResultsDisplay.tsx] (module [ResultsDisplay])

    The Python back end (scorer, aggregator, orchestrator, concurrency
    gate) is not part of the sources at hand; module [Backend] models it
    from the specification and says so at each definition. *)

From Stdlib Require Import ZArith NArith QArith Lia String Ascii.
From Equations Require Import Equations.
From stdpp Require Import base list strings gmap.

Local Open Scope N_scope.
Local Open Scope nat_scope.

(** ** JavaScript strings *)

Module Js.

(** A JavaScript string is a sequence of UTF-16 code units. *)
Definition jsstring : Type := list N.

(** A string literal of the source, one code unit per ASCII character. *)
Definition lit (s : string) : jsstring :=
  map N_of_ascii (list_ascii_of_string s).

(** [WhiteSpace] and [LineTerminator] code points of ECMAScript, the
    characters that [String.prototype.trim] strips. *)
Definition is_whitespace (c : N) : bool :=
  ((c =? 0x09) || (c =? 0x0A) || (c =? 0x0B) || (c =? 0x0C) || (c =? 0x0D)
   || (c =? 0x20) || (c =? 0xA0) || (c =? 0x1680)
   || ((0x2000 <=? c) && (c <=? 0x200A))
   || (c =? 0x2028) || (c =? 0x2029) || (c =? 0x202F) || (c =? 0x205F)
   || (c =? 0x3000) || (c =? 0xFEFF))%N.

Fixpoint trimStart (s : jsstring) : jsstring :=
  match s with
  | [] => []
  | c :: s' => if is_whitespace c then trimStart s' else s
  end.

Definition trimEnd (s : jsstring) : jsstring :=
  reverse (trimStart (reverse s)).

(** [s.trim()] *)
Definition trim (s : jsstring) : jsstring := trimEnd (trimStart s).

(** Truthiness of a string value: only the empty string is falsy. *)
Definition truthy (s : jsstring) : bool :=
  match s with [] => false | _ :: _ => true end.

(** Truthiness of a property that may be absent ([undefined] is falsy). *)
Definition truthy_opt (o : option jsstring) : bool :=
  match o with Some s => truthy s | None => false end.

(** [a || b] on strings that may be absent. *)
Definition or_else (a : option jsstring) (b : option jsstring)
  : option jsstring :=
  if truthy_opt a then a else b.

(** [arr.includes(x)] for an array of strings. *)
Definition includes (arr : list jsstring) (x : jsstring) : bool :=
  bool_decide (x ∈ arr).

End Js.

(** ** types/evaluation.ts *)

Module Evaluation.
Import Js.

Inductive MetricIdentifier : Type :=
| Accuracy | Hallucination | Authoritativeness | Usefulness.

Inductive Rating : Type := Great | Good | Fair | Poor.

(** The literal type [3 | 2 | 1 | 0]. *)
Inductive Score : Type := Score3 | Score2 | Score1 | Score0.

Inductive Badge : Type := Platinum | Gold | Silver | Bronze.

#[export] Instance MetricIdentifier_eq_dec : EqDecision MetricIdentifier.
Proof. solve_decision. Defined.
#[export] Instance Rating_eq_dec : EqDecision Rating.
Proof. solve_decision. Defined.
#[export] Instance Score_eq_dec : EqDecision Score.
Proof. solve_decision. Defined.
#[export] Instance Badge_eq_dec : EqDecision Badge.
Proof. solve_decision. Defined.

Definition score_value (s : Score) : Z :=
  match s with Score3 => 3 | Score2 => 2 | Score1 => 1 | Score0 => 0 end%Z.

Record MetricEvaluation : Type := mkMetricEvaluation {
  metric : MetricIdentifier;
  rating : Rating;
  score : Score;
  badge : Badge;
  reasoning : jsstring;
}.

Record OverallEvaluation : Type := mkOverallEvaluation {
  overall_rating : Rating;
  overall_score : Q;
  overall_badge : Badge;
  summary : jsstring;
}.

Record EvaluationResponse : Type := mkEvaluationResponse {
  accuracy : option MetricEvaluation;
  hallucination : option MetricEvaluation;
  authoritativeness : option MetricEvaluation;
  usefulness : option MetricEvaluation;
  overall : OverallEvaluation;
  evaluation_id : jsstring;
  processing_time : Q;
}.

Record UploadedFile : Type := mkUploadedFile {
  uf_name : jsstring;
  uf_content : jsstring;
  uf_type : jsstring;
  uf_size : N;
}.

Record EvaluationRequest : Type := mkEvaluationRequest {
  model : list jsstring;
  eval_metrices : list MetricIdentifier;
  user_query : jsstring;
  ai_response : jsstring;
  chunk_1 : jsstring;
  chunk_2 : jsstring;
  chunk_3 : jsstring;
  chunk_4 : jsstring;
  chunk_5 : jsstring;
  uploaded_file : option UploadedFile;
}.

(** The rating scale documented with the sources (README, "Rating
    System"): 3 Great Platinum, 2 Good Gold, 1 Fair Silver, 0 Poor Bronze. *)
Definition rating_of_score (s : Score) : Rating :=
  match s with
  | Score3 => Great | Score2 => Good | Score1 => Fair | Score0 => Poor
  end.

Definition badge_of_score (s : Score) : Badge :=
  match s with
  | Score3 => Platinum | Score2 => Gold | Score1 => Silver | Score0 => Bronze
  end.

Definition canonical_tuples : list (Rating * Score * Badge) :=
  [ (Great, Score3, Platinum); (Good, Score2, Gold);
    (Fair, Score1, Silver); (Poor, Score0, Bronze) ].

(** The three fields of a value, as a tuple. *)
Definition verdict_tuple (m : MetricEvaluation) : Rating * Score * Badge :=
  (rating m, score m, badge m).

(** A value is consistent when rating and badge are the ones the scale
    assigns to its score. *)
Definition consistent (m : MetricEvaluation) : bool :=
  bool_decide (rating m = rating_of_score (score m))
  && bool_decide (badge m = badge_of_score (score m)).

Definition all_ratings : list Rating := [Great; Good; Fair; Poor].
Definition all_scores : list Score := [Score3; Score2; Score1; Score0].
Definition all_badges : list Badge := [Platinum; Gold; Silver; Bronze].

(** Every combination of field values the interface admits. *)
Definition all_tuples : list (Rating * Score * Badge) :=
  r ← all_ratings; s ← all_scores; b ← all_badges; [(r, s, b)].

End Evaluation.

(** ** components/EvaluationForm.tsx *)

Module EvaluationForm.
Import Js Evaluation.

(** The part of a browser [File] the component reads: [file.name],
    [file.type] and [file.size]. *)
Module File.
Record t : Type := mk {
  name : jsstring;
  type : jsstring;
  size : N;
}.
End File.

(** The component's state: one field per [useState] hook. *)
Record FormState : Type := mkFormState {
  formData : EvaluationRequest;
  errors : gmap string jsstring;
  uploadedFile : option File.t;
  isUploading : bool;
  csvRecords : list (gmap string jsstring);
  selectedRecordIndex : nat;
}.

Definition all_metrics : list MetricIdentifier :=
  [Accuracy; Hallucination; Authoritativeness; Usefulness].

Definition initial_formData : EvaluationRequest :=
  {| model := [lit "gpt-4o-mini"];
     eval_metrices := all_metrics;
     user_query := []; ai_response := [];
     chunk_1 := []; chunk_2 := []; chunk_3 := []; chunk_4 := [];
     chunk_5 := [];
     uploaded_file := None |}.

Definition initial_state : FormState :=
  {| formData := initial_formData;
     errors := ∅;
     uploadedFile := None;
     isUploading := false;
     csvRecords := [];
     selectedRecordIndex := 0 |}.

(** The text fields of the request that [handleInputChange] is called on. *)
Inductive TextField : Type :=
| UserQuery | AiResponse | Chunk1 | Chunk2 | Chunk3 | Chunk4 | Chunk5.

(** A call [handleInputChange(field, value)]: the field and its new value. *)
Inductive FieldUpdate : Type :=
| SetMetrics (v : list MetricIdentifier)
| SetText (f : TextField) (v : jsstring).

Definition field_name (u : FieldUpdate) : string :=
  match u with
  | SetMetrics _ => "eval_metrices"
  | SetText UserQuery _ => "user_query"
  | SetText AiResponse _ => "ai_response"
  | SetText Chunk1 _ => "chunk_1"
  | SetText Chunk2 _ => "chunk_2"
  | SetText Chunk3 _ => "chunk_3"
  | SetText Chunk4 _ => "chunk_4"
  | SetText Chunk5 _ => "chunk_5"
  end.

(** [{ ...prev, [field]: value }] *)
Definition set_field (u : FieldUpdate) (d : EvaluationRequest)
  : EvaluationRequest :=
  let 'mkEvaluationRequest m em uq ar c1 c2 c3 c4 c5 uf := d in
  match u with
  | SetMetrics v => mkEvaluationRequest m v uq ar c1 c2 c3 c4 c5 uf
  | SetText UserQuery v => mkEvaluationRequest m em v ar c1 c2 c3 c4 c5 uf
  | SetText AiResponse v => mkEvaluationRequest m em uq v c1 c2 c3 c4 c5 uf
  | SetText Chunk1 v => mkEvaluationRequest m em uq ar v c2 c3 c4 c5 uf
  | SetText Chunk2 v => mkEvaluationRequest m em uq ar c1 v c3 c4 c5 uf
  | SetText Chunk3 v => mkEvaluationRequest m em uq ar c1 c2 v c4 c5 uf
  | SetText Chunk4 v => mkEvaluationRequest m em uq ar c1 c2 c3 v c5 uf
  | SetText Chunk5 v => mkEvaluationRequest m em uq ar c1 c2 c3 c4 v uf
  end.

Definition with_formData (d : EvaluationRequest) (st : FormState)
  : FormState :=
  mkFormState d (errors st) (uploadedFile st) (isUploading st)
              (csvRecords st) (selectedRecordIndex st).

Definition with_errors (e : gmap string jsstring) (st : FormState)
  : FormState :=
  mkFormState (formData st) e (uploadedFile st) (isUploading st)
              (csvRecords st) (selectedRecordIndex st).

(** [handleInputChange]: store the value and clear the field's error when
    one is shown. *)
Definition handleInputChange (u : FieldUpdate) (st : FormState) : FormState :=
  let st1 := with_formData (set_field u (formData st)) st in
  if truthy_opt (errors st !! field_name u)
  then with_errors (<[field_name u := []]> (errors st1)) st1
  else st1.

(** The new array computed by [handleMetricToggle]:
    [includes(metric) ? filter(m => m !== metric) : [...current, metric]]. *)
Definition toggle {A : Type} `{EqDecision A} (metric : A) (current : list A)
  : list A :=
  if bool_decide (metric ∈ current)
  then filter (λ m, m ≠ metric) current
  else current ++ [metric].

Definition handleMetricToggle (metric : MetricIdentifier) (st : FormState)
  : FormState :=
  let currentMetrics := eval_metrices (formData st) in
  let newMetrics := toggle metric currentMetrics in
  handleInputChange (SetMetrics newMetrics) st.

(** *** File upload: validation (the synchronous part of
    [handleFileUpload], up to the [try] block that reads the file). *)

Definition allowedTypes : list jsstring :=
  [lit "text/plain"; lit "application/pdf"; lit "text/csv";
   lit "application/json"].

Definition maxSize : N := (10 * 1024 * 1024)%N.

Definition file_type_message : jsstring :=
  lit "Please upload a valid file (TXT, PDF, CSV, or JSON)".

Definition file_size_message : jsstring :=
  lit "File size must be less than 10MB".

(** How the validation part of [handleFileUpload] ends: it returns early
    (no file chosen, or the file refused), or goes on to read and process
    the file. *)
Inductive UploadOutcome : Type :=
| NoFileChosen
| Refused
| Processing.

(** [handleFileUpload] from its first statement to the last one before
    the [try] block: the state it leaves, and how it ends. The [try]
    block (reading the file and filling the form from it) runs exactly
    when the outcome is [Processing]. *)
Definition handleFileUpload (file : option File.t) (st : FormState)
  : FormState * UploadOutcome :=
  match file with
  | None => (st, NoFileChosen)
  | Some f =>
      if negb (includes allowedTypes (File.type f)) then
        (with_errors (<["file" := file_type_message]> (errors st)) st, Refused)
      else if (maxSize <? File.size f)%N then
        (with_errors (<["file" := file_size_message]> (errors st)) st, Refused)
      else
        (mkFormState (formData st) (<["file" := []]> (errors st))
                     (Some f) true (csvRecords st) (selectedRecordIndex st),
         Processing)
  end.

(** *** CSV rows *)

Definition quote : N := 34%N.
Definition comma : N := 44%N.

Definition inspect {A : Type} (x : A) : { y : A | x = y } :=
  exist _ x eq_refl.

(** The [while (i < row.length)] loop of [parseCSVRow], with its four
    mutable variables as arguments; [row !! i] is [row[i]], which is
    [undefined] past the end. *)
Equations? parseCSVRow_loop (row : jsstring) (i : nat) (current : jsstring)
    (inQuotes : bool) (result : list jsstring) : list jsstring
  by wf (length row - i) lt :=
  parseCSVRow_loop row i current inQuotes result
    with inspect (row !! i) => {
    | exist _ None _ := result ++ [trim current];
    | exist _ (Some char) Hchar with decide (char = quote) => {
      | left _
          with inQuotes && bool_decide (row !! (i + 1) = Some quote) => {
        | true :=
            parseCSVRow_loop row (i + 2) (current ++ [quote]) inQuotes result;
        | false :=
            parseCSVRow_loop row (i + 1) current (negb inQuotes) result };
      | right _ with bool_decide (char = comma) && negb inQuotes => {
        | true :=
            parseCSVRow_loop row (i + 1) [] inQuotes
                             (result ++ [trim current]);
        | false :=
            parseCSVRow_loop row (i + 1) (current ++ [char]) inQuotes
                             result } } }.
Proof.
  all: apply lookup_lt_Some in Hchar; lia.
Qed.

Definition parseCSVRow (row : jsstring) : list jsstring :=
  parseCSVRow_loop row 0 [] false [].

(** *** Validation and submission *)

Definition user_query_required : jsstring := lit "User query is required".
Definition ai_response_required : jsstring := lit "AI response is required".
Definition metric_required : jsstring :=
  lit "At least one metric must be selected".

(** The object [newErrors] built by [validateForm]. *)
Definition newErrors (d : EvaluationRequest) : gmap string jsstring :=
  let e0 : gmap string jsstring := ∅ in
  let e1 := if negb (truthy (trim (user_query d)))
            then <["user_query" := user_query_required]> e0 else e0 in
  let e2 := if negb (truthy (trim (ai_response d)))
            then <["ai_response" := ai_response_required]> e1 else e1 in
  let e3 := if Nat.eqb (length (eval_metrices d)) 0
            then <["eval_metrices" := metric_required]> e2 else e2 in
  e3.

(** [validateForm]: stores the errors and tells whether there are none. *)
Definition validateForm (st : FormState) : FormState * bool :=
  let e := newErrors (formData st) in
  (with_errors e st, Nat.eqb (size e) 0).

Definition requestData (st : FormState) : EvaluationRequest :=
  let d := formData st in
  mkEvaluationRequest (model d) (eval_metrices d) (user_query d)
    (ai_response d) (chunk_1 d) (chunk_2 d) (chunk_3 d) (chunk_4 d)
    (chunk_5 d)
    (match uploadedFile st with
     | Some f => Some {| uf_name := File.name f; uf_content := ai_response d;
                         uf_type := File.type f; uf_size := File.size f |}
     | None => None
     end).

(** [handleSubmit]: the new state, and the argument [onSubmit] is called
    with, if it is called. *)
Definition handleSubmit (st : FormState)
  : FormState * option EvaluationRequest :=
  let '(st', ok) := validateForm st in
  if ok then (st', Some (requestData st)) else (st', None).

End EvaluationForm.

(** ** services/api.ts *)

Module Api.
Import Js Evaluation.

Definition API_BASE_URL : jsstring := lit "http://localhost:9777".

(** The configuration given to [axios.create]; [timeout] is in
    milliseconds, and [0] means that the request is never aborted. *)
Record AxiosInstance : Type := mkAxiosInstance {
  baseURL : jsstring;
  timeout : N;
}.

Definition api : AxiosInstance :=
  {| baseURL := API_BASE_URL; timeout := 60000 |}.

(** What the handler of a failed call reads from the error:
    [err.response?.data?.detail] and [err.message]. *)
Record RequestError : Type := mkRequestError {
  detail : option jsstring;
  message : option jsstring;
}.

(** How an awaited call ends. *)
Inductive Settled (A : Type) : Type :=
| Resolved (data : A)
| Thrown (err : RequestError).
Arguments Resolved {A} data.
Arguments Thrown {A} err.

(** The error axios raises when its timer fires: no response, only a
    message. *)
Definition timeout_error : RequestError :=
  {| detail := None;
     message := Some (lit "timeout exceeded") |}.

(** Whether axios aborts a request whose reply needs [latency]
    milliseconds. *)
Definition aborted (inst : AxiosInstance) (latency : N) : bool :=
  ((0 <? timeout inst) && (timeout inst <=? latency))%N.

(** [inst.post(url, body)] without a configuration of its own: the
    instance's timeout applies. [reply] is what the server answers after
    [latency] milliseconds. *)
Definition post {A : Type} (inst : AxiosInstance) (latency : N)
    (reply : Settled A) : Settled A :=
  if aborted inst latency then Thrown timeout_error else reply.

(** [evaluationAPI.evaluate] *)
Definition evaluate (latency : N) (reply : Settled EvaluationResponse)
  : Settled EvaluationResponse :=
  post api latency reply.

End Api.

(** ** App.tsx *)

Module App.
Import Js Evaluation Api.

Record AppState : Type := mkAppState {
  results : option EvaluationResponse;
  isLoading : bool;
  error : option jsstring;
}.

Definition initial_state : AppState :=
  {| results := None; isLoading := false; error := None |}.

(** [err.response?.data?.detail || err.message || 'Evaluation failed'] *)
Definition error_text (err : RequestError) : option jsstring :=
  or_else (or_else (detail err) (message err))
          (Some (lit "Evaluation failed")).

(** The statements of [handleEvaluationSubmit] before the [await]. *)
Definition submit_begin (st : AppState) : AppState :=
  {| results := None; isLoading := true; error := None |}.

(** The statements after the [await]: [setResults] when the call
    resolved, the [catch] block when it threw, then [finally]. *)
Definition submit_settle (outcome : Settled EvaluationResponse)
    (st : AppState) : AppState :=
  match outcome with
  | Resolved response =>
      {| results := Some response; isLoading := false; error := error st |}
  | Thrown err =>
      {| results := results st; isLoading := false; error := error_text err |}
  end.

Definition handleEvaluationSubmit (outcome : Settled EvaluationResponse)
    (st : AppState) : AppState :=
  submit_settle outcome (submit_begin st).

Definition handleNewEvaluation (st : AppState) : AppState :=
  {| results := None; isLoading := isLoading st; error := None |}.

(** What is on screen: the form under [!results && !isLoading], the
    results (with the "New Evaluation" button) under [results]. *)
Definition form_visible (st : AppState) : bool :=
  negb (bool_decide (is_Some (results st))) && negb (isLoading st).

Definition results_visible (st : AppState) : bool :=
  bool_decide (is_Some (results st)).

(** The component as a transition system: the user can submit only from
    the form, a pending call settles while the spinner is shown, and a new
    evaluation starts from the results view. *)
Inductive step : AppState -> AppState -> Prop :=
| step_submit st :
    form_visible st = true -> step st (submit_begin st)
| step_settle st outcome :
    isLoading st = true -> step st (submit_settle outcome st)
| step_new st :
    results_visible st = true -> step st (handleNewEvaluation st).

Inductive reachable : AppState -> Prop :=
| reachable_init : reachable initial_state
| reachable_step st st' : reachable st -> step st st' -> reachable st'.

(** The invariant of the transition system: while a call is pending
    nothing is shown, and results are never shown together with an
    error. *)
Definition exclusive (st : AppState) : Prop :=
  (isLoading st = true → results st = None ∧ error st = None)
  ∧ (is_Some (results st) → error st = None).

End App.

(** ** components/ResultsDisplay.tsx *)

Module ResultsDisplay.
Import Js Evaluation.

Record MetricEntry : Type := mkMetricEntry {
  key : string;
  data : option MetricEvaluation;
}.

(** The four entries before [.filter]. *)
Definition entries (results : EvaluationResponse) : list MetricEntry :=
  [ {| key := "accuracy"; data := accuracy results |};
    {| key := "hallucination"; data := hallucination results |};
    {| key := "authoritativeness"; data := authoritativeness results |};
    {| key := "usefulness"; data := usefulness results |} ].

(** [metrics]: the entries whose [data] is truthy. *)
Definition metrics (results : EvaluationResponse) : list MetricEntry :=
  filter (λ metric, is_Some (data metric)) (entries results).

(** One card of the "Individual Metrics" grid. *)
Record Card : Type := mkCard {
  card_key : string;
  card_metric : MetricIdentifier;
  card_badge : Badge;
  card_score : Score;
  card_rating : Rating;
  card_reasoning : jsstring;
}.

Definition card_of (k : string) (d : MetricEvaluation) : Card :=
  {| card_key := k; card_metric := metric d; card_badge := badge d;
     card_score := score d; card_rating := rating d;
     card_reasoning := reasoning d |}.

(** [metrics.map(metric => <card of metric.data!>)] *)
Definition cards (results : EvaluationResponse) : list Card :=
  omap (λ metric, card_of (key metric) <$> data metric) (metrics results).

(** The "Metrics Evaluated" figure, [metrics.length]. *)
Definition metrics_evaluated (results : EvaluationResponse) : nat :=
  length (metrics results).

End ResultsDisplay.

(** ** The orchestration core (back end) *)

Module Backend.
Import Js Evaluation.

(** Defaults of the environment, as documented with the sources
    ([MAX_CONCURRENT_EVALUATIONS=5], [EVALUATION_TIMEOUT=300], seconds). *)
Definition MAX_CONCURRENT_EVALUATIONS : nat := 5.
Definition EVALUATION_TIMEOUT : N := 300.

Inductive ErrorCode : Type :=
| ValidationError
| Overloaded
| NoMetricsCompleted.

(** Modelled from the spec: the raw verdict of an evaluator, absent from
    the sources: free-text reasoning and an ordinal signal that may be
    missing. *)
Record RawVerdict : Type := mkRawVerdict {
  raw_reasoning : jsstring;
  ordinal : option Z;
}.

(** Modelled from the spec: how one evaluator call ends (the evaluators
    are absent from the sources): a verdict, an evaluator error, or the
    deadline. *)
Inductive EvaluatorOutcome : Type :=
| Verdict (raw : RawVerdict)
| EvaluatorFailed
| DeadlineExceeded.

Module MetricScorer.

(** Modelled from the spec: the Metric Scorer, absent from the sources.
    It normalises the ordinal signal into 0..3 and fails with a scoring
    error ([None]) on a missing or out-of-range signal. *)
Definition normalize (signal : option Z) : option Score :=
  match signal with
  | Some 3%Z => Some Score3
  | Some 2%Z => Some Score2
  | Some 1%Z => Some Score1
  | Some 0%Z => Some Score0
  | _ => None
  end.

(** Modelled from the spec: [score(raw)], the canonical triple derived
    from the normalised score. *)
Definition score (m : MetricIdentifier) (raw : RawVerdict)
  : option MetricEvaluation :=
  s ← normalize (ordinal raw);
  Some (mkMetricEvaluation m (rating_of_score s) s (badge_of_score s)
                           (raw_reasoning raw)).

End MetricScorer.

Module Registry.

(** Modelled from the spec: the Evaluator Registry, absent from the
    sources. An evaluator is named by its metric; resolving collapses
    duplicates. *)
Definition resolve (requested : list MetricIdentifier)
  : list MetricIdentifier :=
  remove_dups requested.

End Registry.

Module Aggregator.

Definition badge_of_rating (r : Rating) : Badge :=
  match r with
  | Great => Platinum | Good => Gold | Fair => Silver | Poor => Bronze
  end.

(** Modelled from the spec: the set S of successfully scored results
    among results-or-failures. *)
Definition successes (results : list (option MetricEvaluation))
  : list MetricEvaluation :=
  omap id results.

Definition total (completed : list MetricEvaluation) : Z :=
  foldr (λ m acc, (score_value (Evaluation.score m) + acc)%Z) 0%Z completed.

(** Modelled from the spec: the arithmetic mean of the scores, not
    rounded. *)
Definition mean (completed : list MetricEvaluation) : Q :=
  (inject_Z (total completed) / inject_Z (Z.of_nat (length completed)))%Q.

(** Modelled from the spec: bucket assignment by the thresholds 2.5, 1.5
    and 0.5. *)
Definition bucket (q : Q) : Rating :=
  if Qle_bool (5 # 2) q then Great
  else if Qle_bool (3 # 2) q then Good
  else if Qle_bool (1 # 2) q then Fair
  else Poor.

Section Aggregate.

(** The summary template is not fixed by the specification: it is given
    the metrics that contributed, the number of results asked for and the
    bucket reached. *)
Variable summarize : list MetricIdentifier -> nat -> Rating -> jsstring.

(** Modelled from the spec: [aggregate], absent from the sources. *)
Definition aggregate (results : list (option MetricEvaluation))
  : ErrorCode + OverallEvaluation :=
  match successes results with
  | [] => inl NoMetricsCompleted
  | completed =>
      let q := mean completed in
      inr {| overall_rating := bucket q;
             overall_score := q;
             overall_badge := badge_of_rating (bucket q);
             summary := summarize (map metric completed) (length results)
                                  (bucket q) |}
  end.

End Aggregate.
End Aggregator.

Module Orchestrator.
Import MetricScorer Registry Aggregator.

Section Run.

Variable summarize : list MetricIdentifier -> nat -> Rating -> jsstring.

(** The evaluators, as one function of the metric, the request being
    fixed. *)
Variable evaluator : MetricIdentifier -> EvaluatorOutcome.

(** Opaque request token and elapsed time. *)
Variable new_id : jsstring.
Variable elapsed : Q.

(** Modelled from the spec: request validation (non-empty metric set,
    required text fields present). *)
Definition valid (request : EvaluationRequest) : bool :=
  negb (Nat.eqb (length (eval_metrices request)) 0)
  && truthy (user_query request) && truthy (ai_response request).

(** Modelled from the spec: one task, an evaluator call followed by the
    scorer; any failure leaves a gap. *)
Definition task (m : MetricIdentifier) : option MetricEvaluation :=
  match evaluator m with
  | Verdict raw => MetricScorer.score m raw
  | EvaluatorFailed | DeadlineExceeded => None
  end.

(** The response field of metric [m]: the task's result when [m] was
    requested, absent otherwise. *)
Definition field (resolved : list MetricIdentifier) (m : MetricIdentifier)
  : option MetricEvaluation :=
  if bool_decide (m ∈ resolved) then task m else None.

(** Modelled from the spec: the request lifecycle after admission
    (validate, resolve, fan out, score, aggregate), absent from the
    sources. *)
Definition run (request : EvaluationRequest)
  : ErrorCode + EvaluationResponse :=
  if negb (valid request) then inl ValidationError
  else
    let resolved := resolve (eval_metrices request) in
    match aggregate summarize (map task resolved) with
    | inl e => inl e
    | inr o =>
        inr {| accuracy := field resolved Accuracy;
               hallucination := field resolved Hallucination;
               authoritativeness := field resolved Authoritativeness;
               usefulness := field resolved Usefulness;
               overall := o;
               evaluation_id := new_id;
               processing_time := elapsed |}
    end.

End Run.
End Orchestrator.

Module Gate.

(** Modelled from the spec: the Concurrency Gate, absent from the
    sources. Requests are named by numbers; [in_flight] holds the
    requests past the gate, [waiting] the queue, oldest first. *)
Record GateState : Type := mkGateState {
  ceiling : nat;
  in_flight : list nat;
  waiting : list nat;
}.

Definition init (n : nat) : GateState :=
  {| ceiling := n; in_flight := []; waiting := [] |}.

(** What can happen at the gate: a request arrives and calls [acquire],
    a request past the gate calls [release], or the outer deadline of a
    request expires. *)
Inductive GateEvent : Type :=
| Arrive (r : nat)
| Release (r : nat)
| Expire (r : nat).

(** What the request concerned observes. *)
Inductive GateOutcome : Type :=
| Granted
| Queued
| Released
| Failed (e : ErrorCode)
| Ignored.

Fixpoint remove_first (r : nat) (l : list nat) : list nat :=
  match l with
  | [] => []
  | x :: l' => if bool_decide (x = r) then l' else x :: remove_first r l'
  end.

(** Modelled from the spec: [acquire]: a permit when one is free,
    otherwise the request joins the queue at its end. *)
Definition acquire (r : nat) (st : GateState) : GateState * GateOutcome :=
  if bool_decide (length (in_flight st) < ceiling st) then
    (mkGateState (ceiling st) (in_flight st ++ [r]) (waiting st), Granted)
  else
    (mkGateState (ceiling st) (in_flight st) (waiting st ++ [r]), Queued).

(** Modelled from the spec: [release]: the permit goes to the oldest
    waiting request, if any. *)
Definition release (r : nat) (st : GateState) : GateState * GateOutcome :=
  if bool_decide (r ∈ in_flight st) then
    let rest := remove_first r (in_flight st) in
    match waiting st with
    | [] => (mkGateState (ceiling st) rest [], Released)
    | q :: ws => (mkGateState (ceiling st) (rest ++ [q]) ws, Released)
    end
  else (st, Ignored).

(** Modelled from the spec: a request whose outer deadline expires while
    it is still queued leaves the queue and fails with [Overloaded]. *)
Definition expire (r : nat) (st : GateState) : GateState * GateOutcome :=
  if bool_decide (r ∈ waiting st) then
    (mkGateState (ceiling st) (in_flight st) (remove_first r (waiting st)),
     Failed Overloaded)
  else (st, Ignored).

Definition gate_step (ev : GateEvent) (st : GateState)
  : GateState * GateOutcome :=
  match ev with
  | Arrive r => acquire r st
  | Release r => release r st
  | Expire r => expire r st
  end.

(** The state after a sequence of events, oldest first. *)
Definition run (evs : list GateEvent) (st : GateState) : GateState :=
  foldl (λ s ev, fst (gate_step ev s)) st evs.

End Gate.
End Backend.

(** ** CSV rows, written and read *)

Module Csv.
Import Js EvaluationForm.

(** The writer's side of the format [parseCSVRow] reads: a field is
    wrapped in double quotes, with every double quote inside doubled. *)
Definition escape (field : jsstring) : jsstring :=
  c ← field; if bool_decide (c = quote) then [quote; quote] else [c].

Definition encode_field (field : jsstring) : jsstring :=
  quote :: escape field ++ [quote].

(** The encoded fields, separated by commas. *)
Fixpoint encode_row (fields : list jsstring) : jsstring :=
  match fields with
  | [] => []
  | [f] => encode_field f
  | f :: fs => encode_field f ++ comma :: encode_row fs
  end.

(** The loop of [parseCSVRow] as a function of the part of the row not
    yet read; the proofs go through it. *)
Fixpoint scan (rest : jsstring) (current : jsstring) (inQuotes : bool)
    (result : list jsstring) : list jsstring :=
  match rest with
  | [] => result ++ [trim current]
  | char :: rest' =>
      if decide (char = quote) then
        match rest' with
        | next :: rest'' =>
            if inQuotes && bool_decide (next = quote)
            then scan rest'' (current ++ [quote]) inQuotes result
            else scan rest' current (negb inQuotes) result
        | [] => scan rest' current (negb inQuotes) result
        end
      else if bool_decide (char = comma) && negb inQuotes
      then scan rest' [] inQuotes (result ++ [trim current])
      else scan rest' (current ++ [char]) inQuotes result
  end.

End Csv.

(** ** components/EvaluationForm.tsx: reading an uploaded file *)

Module FileProcessing.
Import Js Evaluation EvaluationForm.

#[export] Instance TextField_eq_dec : EqDecision TextField.
Proof. solve_decision. Defined.

Definition text_fields : list TextField :=
  [UserQuery; AiResponse; Chunk1; Chunk2; Chunk3; Chunk4; Chunk5].

(** The property name of a text field. *)
Definition text_field_name (f : TextField) : string :=
  field_name (SetText f []).

(** [formData[field]] for a text field. *)
Definition text_of (f : TextField) (d : EvaluationRequest) : jsstring :=
  match f with
  | UserQuery => user_query d
  | AiResponse => ai_response d
  | Chunk1 => chunk_1 d
  | Chunk2 => chunk_2 d
  | Chunk3 => chunk_3 d
  | Chunk4 => chunk_4 d
  | Chunk5 => chunk_5 d
  end.

(** [handleInputChange] as it behaves inside a handler that has already
    changed the state: [errors] is read from the render the handler
    belongs to ([closure]), while both updates are applied to the current
    state ([setFormData(prev => ...)], [setErrors(prev => ...)]). *)
Definition handleInputChange_from (closure : FormState) (u : FieldUpdate)
    (cur : FormState) : FormState :=
  let cur1 := with_formData (set_field u (formData cur)) cur in
  if truthy_opt (errors closure !! field_name u)
  then with_errors (<[field_name u := []]> (errors cur1)) cur1
  else cur1.

Definition with_isUploading (b : bool) (st : FormState) : FormState :=
  mkFormState (formData st) (errors st) (uploadedFile st) b
              (csvRecords st) (selectedRecordIndex st).

Definition with_uploadedFile (f : option File.t) (st : FormState)
  : FormState :=
  mkFormState (formData st) (errors st) f (isUploading st)
              (csvRecords st) (selectedRecordIndex st).

Definition with_csvRecords (rs : list (gmap string jsstring))
    (st : FormState) : FormState :=
  mkFormState (formData st) (errors st) (uploadedFile st) (isUploading st)
              rs (selectedRecordIndex st).

Definition with_selectedRecordIndex (i : nat) (st : FormState) : FormState :=
  mkFormState (formData st) (errors st) (uploadedFile st) (isUploading st)
              (csvRecords st) i.

(** [extractFileContent]: [read] is what the [FileReader] delivers, the
    text on [onload] or nothing on [onerror]; a PDF is rejected without
    being read. [None] is the rejected promise. *)
Definition extractFileContent (file : File.t) (read : option jsstring)
  : option jsstring :=
  if bool_decide (File.type file = lit "text/plain")
     || bool_decide (File.type file = lit "text/csv")
     || bool_decide (File.type file = lit "application/json")
  then read
  else if bool_decide (File.type file = lit "application/pdf")
  then None
  else read.

(** [s.endsWith(suffix)] *)
Definition endsWith (s suffix : jsstring) : bool :=
  bool_decide (suffix `suffix_of` s).

(** [file.type === 'text/csv' || file.name.endsWith('.csv')] *)
Definition isCSV (file : File.t) : bool :=
  bool_decide (File.type file = lit "text/csv")
  || endsWith (File.name file) (lit ".csv").

Definition newline : N := 10%N.

(** [s.split(sep)] for a separator of one code unit: the pieces between
    the separators, at least one. *)
Fixpoint split_on (sep : N) (s : jsstring) : list jsstring :=
  match s with
  | [] => [[]]
  | c :: s' =>
      if (c =? sep)%N then [] :: split_on sep s'
      else match split_on sep s' with
           | piece :: pieces => (c :: piece) :: pieces
           | [] => [[c]]
           end
  end.

(** What [fieldMapping[header]] evaluates to: the field of an own key, a
    value inherited from [Object.prototype] (truthy, and not a field
    name), or [undefined]. *)
Inductive Mapping : Type :=
| Own (f : TextField)
| Inherited
| Unmapped.

(** The property names every object literal inherits. *)
Definition object_prototype_names : list jsstring :=
  [ lit "constructor"; lit "hasOwnProperty"; lit "isPrototypeOf";
    lit "propertyIsEnumerable"; lit "toLocaleString"; lit "toString";
    lit "valueOf"; lit "__proto__"; lit "__defineGetter__";
    lit "__defineSetter__"; lit "__lookupGetter__"; lit "__lookupSetter__" ].

Definition fieldMapping (header : jsstring) : Mapping :=
  match list_find (λ f, lit (text_field_name f) = header) text_fields with
  | Some (_, f) => Own f
  | None =>
      if includes object_prototype_names header then Inherited
      else Unmapped
  end.

(** One step of [headers.forEach((header, index) => ...)] on the record
    being built. A non-empty cell under an inherited name is stored by
    the source under a key that depends on the JavaScript engine; the
    model stops there ([None]). *)
Definition add_cell (row : list jsstring)
    (acc : option (gmap string jsstring)) (column : nat * jsstring)
  : option (gmap string jsstring) :=
  match acc with
  | None => None
  | Some record =>
      match fieldMapping column.2, row !! column.1 with
      | Own f, Some cell =>
          if truthy cell then Some (<[text_field_name f := cell]> record)
          else Some record
      | Inherited, Some cell => if truthy cell then None else Some record
      | _, _ => Some record
      end
  end.

(** The record of one data row. *)
Definition record_of_row (headers row : list jsstring)
  : option (gmap string jsstring) :=
  foldl (add_cell row) (Some ∅) (imap pair headers).

(** [dataRows.map(row => record)], inside the model when every record
    is. *)
Definition records_of (headers : list jsstring)
    (dataRows : list (list jsstring)) : option (list (gmap string jsstring)) :=
  mapM (record_of_row headers) dataRows.

(** One iteration of the [forEach] of [populateFormWithRecord]. *)
Definition populate_field (closure : FormState)
    (record : gmap string jsstring) (cur : FormState) (f : TextField)
  : FormState :=
  match record !! text_field_name f with
  | Some v =>
      if truthy v then handleInputChange_from closure (SetText f v) cur
      else cur
  | None => cur
  end.

(** The [forEach] over the given keys, in their order. *)
Definition populate_keys (closure : FormState)
    (record : gmap string jsstring) (keys : list TextField)
    (cur : FormState) : FormState :=
  foldl (populate_field closure record) cur keys.

(** Whether the record holds a non-empty value for the field. *)
Definition touched (record : gmap string jsstring) (f : TextField) : bool :=
  truthy_opt (record !! text_field_name f).

(** The text of a field after the record has been applied to it. *)
Definition populated (record : gmap string jsstring) (f : TextField)
    (old : jsstring) : jsstring :=
  match record !! text_field_name f with
  | Some v => if truthy v then v else old
  | None => old
  end.

(** Whether visiting the keys applies the record to the field named
    [k]. *)
Definition visits (record : gmap string jsstring) (keys : list TextField)
    (k : string) : bool :=
  existsb (λ f, bool_decide (text_field_name f = k) && touched record f) keys.

Definition default_query : jsstring := lit "Please evaluate the AI response".

(** [populateFormWithRecord], for a record whose keys are field names.
    The source visits the keys of the record in insertion order; visiting
    all field names in a fixed order gives the same state (lemma
    [populate_keys_any_order]). *)
Definition populateFormWithRecord (closure : FormState)
    (record : gmap string jsstring) (cur : FormState) : FormState :=
  let cur1 := populate_keys closure record text_fields cur in
  let userQueryFound := truthy_opt (record !! "user_query") in
  if userQueryFound then cur1
  else handleInputChange_from closure (SetText UserQuery default_query) cur1.

(** The records the component stores have form fields as their only
    keys; [populateFormWithRecord] is modelled for such records. *)
Definition field_keys (record : gmap string jsstring) : Prop :=
  map_Forall (λ k _, k ∈ (text_field_name <$> text_fields)) record.

(** [handleRecordSelection] *)
Definition handleRecordSelection (index : nat) (st : FormState) : FormState :=
  let st1 := with_selectedRecordIndex index st in
  match csvRecords st !! index with
  | Some record => populateFormWithRecord st record st1
  | None => st1
  end.

Definition uploaded_file_query : jsstring :=
  lit "Please evaluate the content from the uploaded file".

(** The [catch] block of [parseCSVContent], also the non-CSV branch of
    [handleFileUpload] up to the suggested query: the content goes to the
    AI response, and a query is suggested when the form had none. *)
Definition content_to_response (closure : FormState) (content : jsstring)
    (suggestion : jsstring) (cur : FormState) : FormState :=
  let cur1 := handleInputChange_from closure (SetText AiResponse content) cur in
  if negb (truthy (trim (user_query (formData closure))))
  then handleInputChange_from closure (SetText UserQuery suggestion) cur1
  else cur1.

(** [parseCSVContent]; [None] when a record leaves the model (see
    [add_cell]). *)
Definition parseCSVContent (closure : FormState) (content : jsstring)
    (cur : FormState) : option FormState :=
  let lines := split_on newline (trim content) in
  match lines with
  | header :: ((_ :: _) as rest) =>
      let headers := parseCSVRow header in
      let dataRows := map parseCSVRow rest in
      match records_of headers dataRows with
      | Some records =>
          let cur1 := with_selectedRecordIndex 0
                        (with_csvRecords records cur) in
          match records with
          | record :: _ => Some (populateFormWithRecord closure record cur1)
          | [] =>
              Some (content_to_response closure content uploaded_file_query
                                        cur1)
          end
      | None => None
      end
  | _ => Some (content_to_response closure content uploaded_file_query cur)
  end.

Definition processing_error : jsstring :=
  lit "Error processing file. Please try again.".

Definition content_from (file : File.t) : jsstring :=
  lit "Please evaluate the content from " ++ File.name file.

(** The [try] / [catch] / [finally] of [handleFileUpload], run on the
    state [cur] the component is in when the file has been read;
    [closure] is the state of the render the handler belongs to. *)
Definition process_file (file : File.t) (read : option jsstring)
    (closure cur : FormState) : option FormState :=
  match extractFileContent file read with
  | None =>
      Some (with_isUploading false
              (with_uploadedFile None
                 (with_errors (<["file" := processing_error]> (errors cur))
                              cur)))
  | Some content =>
      if isCSV file then
        with_isUploading false <$> parseCSVContent closure content cur
      else
        Some (with_isUploading false
                (content_to_response closure content (content_from file)
                                     cur))
  end.

(** [handleFileUpload] as a whole, when nothing else happens while the
    file is read. *)
Definition upload (file : option File.t) (read : option jsstring)
    (st : FormState) : option FormState :=
  match handleFileUpload file st, file with
  | (st1, Processing), Some f => process_file f read st st1
  | (st1, _), _ => Some st1
  end.

(** [removeUploadedFile] *)
Definition removeUploadedFile (st : FormState) : FormState :=
  mkFormState (formData st) (<["file" := []]> (errors st)) None
              (isUploading st) [] 0.

End FileProcessing.

(** ** components/SystemStatus.tsx *)

Module SystemStatus.
Import Js Evaluation Api.

Record SystemHealth : Type := mkSystemHealth {
  status : jsstring;
  active_evaluations : Q;
  max_concurrent_evaluations : Q;
  model_provider : jsstring;
  current_model : jsstring;
  evaluation_timeout : Q;
  agents : list jsstring;
  version : jsstring;
}.

Record StatusState : Type := mkStatusState {
  health : option SystemHealth;
  isLoading : bool;
  error : option jsstring;
}.

Definition initial_state : StatusState :=
  {| health := None; isLoading := true; error := None |}.

Definition fetch_failed : jsstring := lit "Failed to fetch system status".

(** [fetchHealth] before the [await]. *)
Definition fetch_begin (st : StatusState) : StatusState :=
  {| health := health st; isLoading := true; error := error st |}.

(** [fetchHealth] after the [await]. *)
Definition fetch_settle (outcome : Settled SystemHealth) (st : StatusState)
  : StatusState :=
  match outcome with
  | Resolved healthData =>
      {| health := Some healthData; isLoading := false; error := None |}
  | Thrown _ =>
      {| health := health st; isLoading := false;
         error := Some fetch_failed |}
  end.

(** What the component renders. *)
Inductive View : Type :=
| Checking
| Unavailable
| Panel (h : SystemHealth).

Definition render (st : StatusState) : View :=
  if isLoading st then Checking
  else match health st with
       | Some h => if truthy_opt (error st) then Unavailable else Panel h
       | None => Unavailable
       end.

(** The health checks in flight: one starts on mount and every 30
    seconds, each settles at some time. *)
Inductive FetchEvent : Type :=
| Begin
| Settle (outcome : Settled SystemHealth).

Definition fetch_step (st : StatusState) (ev : FetchEvent) : StatusState :=
  match ev with
  | Begin => fetch_begin st
  | Settle outcome => fetch_settle outcome st
  end.

End SystemStatus.

(** ** App.tsx: what is on screen *)

Module AppView.
Import Js Evaluation App.

(** The spinner is rendered under [isLoading]. *)
Definition spinner_visible (st : AppState) : bool := isLoading st.

(** The error banner sits inside the form view, under [error]. *)
Definition error_visible (st : AppState) : bool :=
  form_visible st && truthy_opt (error st).

(** The number of the three views that are rendered. *)
Definition views_rendered (st : AppState) : nat :=
  (if form_visible st then 1 else 0)
  + (if spinner_visible st then 1 else 0)
  + (if results_visible st then 1 else 0).

End AppView.

(** ** CSV rows without quotes *)

Module CsvPlain.
Import Js EvaluationForm.

(** The fields of a row, separated by commas, written as they are. *)
Fixpoint join_row (fields : list jsstring) : jsstring :=
  match fields with
  | [] => []
  | [f] => f
  | f :: fs => f ++ comma :: join_row fs
  end.

(** A field that can be written without quotes. *)
Definition plain (field : jsstring) : Prop :=
  (quote ∉ field) ∧ (comma ∉ field).

(** A string that [trim] leaves alone: it neither starts nor ends with
    white space. *)
Definition trimmed (s : jsstring) : Prop :=
  match s with [] => True | c :: _ => is_whitespace c = false end
  ∧ match reverse s with [] => True | c :: _ => is_whitespace c = false end.

End CsvPlain.

(** ** Sample values used in examples *)

Module Samples.
Import Js Evaluation.

(** A well-typed [MetricEvaluation] whose fields contradict the scale. *)
Definition mismatched : MetricEvaluation :=
  mkMetricEvaluation Accuracy Poor Score3 Bronze (lit "n/a").

Definition no_summary (contributed : list MetricIdentifier) (asked : nat)
    (r : Rating) : jsstring := [].

Definition scored (m : MetricIdentifier) (s : Score) : MetricEvaluation :=
  mkMetricEvaluation m (rating_of_score s) s (badge_of_score s) [].

(** Four metrics asked for; one evaluator failed, three scored 3, 3, 2. *)
Definition one_failure : list (option MetricEvaluation) :=
  [ Some (scored Accuracy Score3); None;
    Some (scored Authoritativeness Score3); Some (scored Usefulness Score2) ].

(** The scenario of a request naming only Accuracy. *)
Definition accuracy_only : EvaluationRequest :=
  {| model := [lit "gpt-4o-mini"];
     eval_metrices := [Accuracy];
     user_query := lit "What is 2+2?";
     ai_response := lit "4";
     chunk_1 := []; chunk_2 := []; chunk_3 := []; chunk_4 := [];
     chunk_5 := [];
     uploaded_file := None |}.

Definition verdict_three : Backend.RawVerdict :=
  {| Backend.raw_reasoning := lit "correct";
     Backend.ordinal := Some 3%Z |}.

Definition always_three (m : MetricIdentifier) : Backend.EvaluatorOutcome :=
  Backend.Verdict verdict_three.

End Samples.

(** ** Sample files and rows used in examples *)

Module Fixtures.
Import Js Evaluation EvaluationForm FileProcessing.

Definition notes_txt : File.t :=
  File.mk (lit "notes.txt") (lit "text/plain") 2048.

Definition paper_pdf : File.t :=
  File.mk (lit "paper.pdf") (lit "application/pdf") 4096.

Definition sample_headers : list jsstring :=
  [lit "user_query"; lit "note"; lit "ai_response"].

Definition sample_row : list jsstring := [lit "What is 2+2?"; lit "x"; []].

Definition sample_record : gmap string jsstring :=
  {[ "user_query" := lit "What is 2+2?" ]}.

(** A header line and two data lines, the second one empty. *)
Definition two_rows : jsstring :=
  lit "user_query,ai_response" ++ [newline] ++ lit "What is 2+2?, 4 "
  ++ [newline] ++ [newline] ++ lit "Why?,Because" ++ [newline].

Definition one_line : jsstring := lit "  only one line  ".

(** The form after [two_rows] has been read as a CSV file. *)
Definition two_rows_loaded : FormState :=
  default EvaluationForm.initial_state
    (parseCSVContent EvaluationForm.initial_state two_rows
                     EvaluationForm.initial_state).

Definition data_csv : File.t :=
  File.mk (lit "data.csv") (lit "text/csv") 512.

(** The form after [data_csv], holding [two_rows], has been uploaded. *)
Definition two_rows_uploaded : FormState :=
  default EvaluationForm.initial_state
    (upload (Some data_csv) (Some two_rows) EvaluationForm.initial_state).

(** A complete response, as a server would send it. *)
Definition sample_response : EvaluationResponse :=
  mkEvaluationResponse None None None None
    (mkOverallEvaluation Great (3 # 1) Platinum []) [] (0 # 1).

(** The form while a call is pending. *)
Definition pending : App.AppState := App.submit_begin App.initial_state.

End Fixtures.

(** * Properties *)

Import Js Evaluation.

(** ** Strings *)

Section Strings.

Lemma trimStart_nil_iff (s : jsstring) :
  trimStart s = [] <-> Forall (λ c, is_whitespace c = true) s.
Proof.
  induction s as [|c s IH]; simpl.
  - split; [constructor | reflexivity].
  - destruct (is_whitespace c) eqn:Hc.
    + rewrite IH. split.
      * intros H. constructor; assumption.
      * intros H. inversion H; assumption.
    + split; [discriminate |].
      intros H. inversion H; congruence.
Qed.

Lemma trimStart_head (s : jsstring) c t :
  trimStart s = c :: t → is_whitespace c = false.
Proof.
  induction s as [|d s IH]; simpl; [discriminate |].
  destruct (is_whitespace d) eqn:Hd; [exact IH |].
  intros [= <- <-]. exact Hd.
Qed.

(** A string is empty after trimming exactly when it holds nothing but
    white space. *)
Lemma trim_nil_iff (s : jsstring) :
  trim s = [] <-> Forall (λ c, is_whitespace c = true) s.
Proof.
  unfold trim, trimEnd. split.
  - intros H.
    assert (Hr : trimStart (reverse (trimStart s)) = []).
    { apply (f_equal reverse) in H. rewrite reverse_involutive in H.
      exact H. }
    apply trimStart_nil_iff in Hr. apply Forall_reverse in Hr.
    rewrite reverse_involutive in Hr.
    destruct (trimStart s) as [|c t] eqn:Ht.
    + apply trimStart_nil_iff. exact Ht.
    + apply trimStart_head in Ht. inversion Hr; congruence.
  - intros H. apply trimStart_nil_iff in H. rewrite H. reflexivity.
Qed.

Lemma truthy_false_iff (s : jsstring) : truthy s = false <-> s = [].
Proof. destruct s; simpl; split; congruence. Qed.

Lemma truthy_true_iff (s : jsstring) : truthy s = true <-> s ≠ [].
Proof. destruct s; simpl; split; congruence. Qed.

End Strings.

(** ** The rating scale *)

Section Scale.

Lemma consistent_iff (m : MetricEvaluation) :
  consistent m = true <-> verdict_tuple m ∈ canonical_tuples.
Proof.
  unfold consistent, verdict_tuple, canonical_tuples.
  rewrite andb_true_iff, !bool_decide_eq_true.
  destruct m as [mt r s b t]; simpl.
  rewrite !elem_of_cons, elem_of_nil.
  destruct r, s, b; simpl; split; intros H;
    try (destruct H as [H1 H2]; discriminate);
    try (split; reflexivity); try tauto;
    repeat (destruct H as [H|H]; try discriminate H); try contradiction.
Qed.

(** The cards of the results view, read off the response: a card is shown
    exactly for a field of the response that is present, under the key of
    that field, and it carries the five fields of the value as received. *)
Lemma card_shown_iff (results : EvaluationResponse)
    (c : ResultsDisplay.Card) :
  c ∈ ResultsDisplay.cards results <->
  ∃ k m,
    (k, Some m) ∈ [ ("accuracy", accuracy results);
                    ("hallucination", hallucination results);
                    ("authoritativeness", authoritativeness results);
                    ("usefulness", usefulness results) ]
    ∧ c = ResultsDisplay.mkCard k (metric m) (badge m) (score m) (rating m)
                                (reasoning m).
Proof.
  unfold ResultsDisplay.cards, ResultsDisplay.metrics,
    ResultsDisplay.entries.
  destruct (accuracy results) as [a|], (hallucination results) as [h|],
    (authoritativeness results) as [au|], (usefulness results) as [u|];
    simpl.
  all: split;
    [ intros Hc; rewrite ?elem_of_cons, ?elem_of_nil in Hc;
      repeat (destruct Hc as [->|Hc]); try contradiction;
      eexists _, _; (split; [|reflexivity]);
      rewrite !elem_of_cons; repeat first [left; reflexivity | right]
    | intros (k & m & Hin & ->);
      rewrite !elem_of_cons, elem_of_nil in Hin;
      repeat (destruct Hin as [Hin'|Hin];
              [try discriminate Hin'; injection Hin' as -> ->;
               rewrite ?elem_of_cons;
               repeat first [left; reflexivity | right] |]);
      contradiction ].
Qed.

(** C1, as stated, fails: the interface constrains the three fields one
    by one, so a value with score 3, rating Poor and badge Bronze is
    well typed, and it is none of the four canonical tuples. *)
Lemma mismatched_tuple_representable :
  ¬ (∀ m : MetricEvaluation, verdict_tuple m ∈ canonical_tuples).
Proof.
  intros H. specialize (H Samples.mismatched).
  apply consistent_iff in H. vm_compute in H. discriminate.
Qed.

(** C1, amended: every result the Metric Scorer produces is one of the
    four canonical tuples, and the scale gives each score exactly one
    rating and one badge; the [MetricEvaluation] interface itself bounds
    rating, score and badge independently: each of the 64 combinations
    of a rating, a score and a badge is the tuple of some value, no value
    has another tuple, and exactly the four canonical ones are
    consistent; and the results view shows the fields of a received value
    as they are: every field of the response that is present, consistent
    or not, gets a card under its key with the metric, rating, score,
    badge and reasoning of the value, and no other card is shown. *)
Theorem metric_evaluation_scale :
  (∀ metric raw,
     match Backend.MetricScorer.score metric raw with
     | Some m => verdict_tuple m ∈ canonical_tuples
     | None => True
     end)
  ∧ (∀ m : MetricEvaluation,
       consistent m = true <-> verdict_tuple m ∈ canonical_tuples)
  ∧ (∀ s r b, (r, s, b) ∈ canonical_tuples <->
              r = rating_of_score s ∧ b = badge_of_score s)
  ∧ (∀ m : MetricEvaluation,
       verdict_tuple m ∈ all_tuples
       ∧ (0 <= score_value (score m) <= 3)%Z)
  ∧ (∀ r s b, (r, s, b) ∈ all_tuples
              ∧ ∃ m : MetricEvaluation, verdict_tuple m = (r, s, b))
  ∧ NoDup all_tuples
  ∧ length all_tuples = 64
  ∧ filter (λ t, t ∈ canonical_tuples) all_tuples = canonical_tuples
  ∧ (∀ (results : EvaluationResponse) k m,
       (k, Some m) ∈ [ ("accuracy", accuracy results);
                       ("hallucination", hallucination results);
                       ("authoritativeness", authoritativeness results);
                       ("usefulness", usefulness results) ] →
       ∃ c, c ∈ ResultsDisplay.cards results
            ∧ ResultsDisplay.card_key c = k
            ∧ (ResultsDisplay.card_rating c, ResultsDisplay.card_score c,
               ResultsDisplay.card_badge c) = verdict_tuple m
            ∧ ResultsDisplay.card_metric c = metric m
            ∧ ResultsDisplay.card_reasoning c = reasoning m)
  ∧ (∀ (results : EvaluationResponse) c,
       c ∈ ResultsDisplay.cards results →
       ∃ k m,
         (k, Some m) ∈ [ ("accuracy", accuracy results);
                         ("hallucination", hallucination results);
                         ("authoritativeness", authoritativeness results);
                         ("usefulness", usefulness results) ]
         ∧ ResultsDisplay.card_key c = k
         ∧ (ResultsDisplay.card_rating c, ResultsDisplay.card_score c,
            ResultsDisplay.card_badge c) = verdict_tuple m
         ∧ ResultsDisplay.card_metric c = metric m
         ∧ ResultsDisplay.card_reasoning c = reasoning m)
  ∧ (∀ o id t,
       ∃ c, c ∈ ResultsDisplay.cards
                  (mkEvaluationResponse (Some Samples.mismatched) None None
                     None o id t)
            ∧ (ResultsDisplay.card_rating c, ResultsDisplay.card_score c,
               ResultsDisplay.card_badge c) ∉ canonical_tuples).
Proof.
  split_and!.
  - intros metric raw. unfold Backend.MetricScorer.score.
    destruct (Backend.MetricScorer.normalize (Backend.ordinal raw)) as [s|];
      simpl; [|exact I].
    apply consistent_iff. destruct s; reflexivity.
  - apply consistent_iff.
  - intros s r b. unfold canonical_tuples.
    rewrite !elem_of_cons, elem_of_nil.
    destruct s, r, b; simpl; split; intros H;
      try (destruct H as [H1 H2]; discriminate);
      try (split; reflexivity); try tauto;
      repeat (destruct H as [H|H]; try discriminate H); try contradiction.
  - intros [mt r s b t]. unfold verdict_tuple. simpl. split.
    + destruct r, s, b; vm_compute; repeat (try (left; fail); right);
        left.
    + destruct s; simpl; lia.
  - intros r s b. split.
    + destruct r, s, b; vm_compute; repeat (try (left; fail); right);
        left.
    + exists (mkMetricEvaluation Accuracy r s b []). reflexivity.
  - apply (bool_decide_unpack (NoDup all_tuples)). vm_compute. exact I.
  - reflexivity.
  - vm_compute. reflexivity.
  - intros results k m Hin.
    exists (ResultsDisplay.mkCard k (metric m) (badge m) (score m)
                                  (rating m) (reasoning m)).
    split; [|repeat split].
    apply card_shown_iff. exists k, m. split; [exact Hin | reflexivity].
  - intros results c Hc. apply card_shown_iff in Hc.
    destruct Hc as (k & m & Hin & ->). exists k, m.
    split; [exact Hin | repeat split].
  - intros o id t. eexists. split.
    + apply card_shown_iff. exists "accuracy", Samples.mismatched.
      split; [left | reflexivity].
    + simpl. intros H. apply (consistent_iff Samples.mismatched) in H.
      vm_compute in H. discriminate.
Qed.

End Scale.

(** ** The evaluation form *)

Section Toggle.
Import EvaluationForm.
Context {A : Type} `{EqDecision A}.

Lemma toggle_present (metric : A) (current : list A) :
  metric ∈ current →
  toggle metric current = filter (λ m, m ≠ metric) current.
Proof. intros H. unfold toggle. rewrite bool_decide_eq_true_2; done. Qed.

Lemma toggle_absent (metric : A) (current : list A) :
  metric ∉ current → toggle metric current = current ++ [metric].
Proof. intros H. unfold toggle. rewrite bool_decide_eq_false_2; done. Qed.

Lemma toggle_NoDup (metric : A) (current : list A) :
  NoDup current → NoDup (toggle metric current).
Proof.
  intros Hnd. destruct (decide (metric ∈ current)) as [Hin|Hout].
  - rewrite toggle_present by exact Hin. apply NoDup_filter, Hnd.
  - rewrite toggle_absent by exact Hout.
    apply NoDup_app. split; [exact Hnd|]. split.
    + intros x Hx Hx'. apply list_elem_of_singleton in Hx'. subst x.
      contradiction.
    + apply NoDup_singleton.
Qed.

Lemma toggle_removes (metric : A) (current : list A) :
  metric ∈ current → metric ∉ toggle metric current.
Proof.
  intros Hin. rewrite toggle_present by exact Hin.
  intros H. apply list_elem_of_filter in H. destruct H as [H _].
  apply H. reflexivity.
Qed.

Lemma toggle_appends_once (metric : A) (current : list A) :
  metric ∉ current →
  length (filter (λ m, m = metric) (toggle metric current)) = 1.
Proof.
  intros Hout. rewrite toggle_absent by exact Hout.
  rewrite filter_app, length_app.
  assert (Hnone : filter (λ m, m = metric) current = []).
  { clear -Hout. induction current as [|x l IH]; [reflexivity|].
    rewrite filter_cons. apply not_elem_of_cons in Hout as [Hne Hl].
    rewrite decide_False by (intros ->; apply Hne; reflexivity).
    apply IH, Hl. }
  rewrite Hnone. rewrite filter_cons, decide_True by reflexivity.
  reflexivity.
Qed.

End Toggle.

Section Form.
Import EvaluationForm.

Lemma eval_metrices_set_field u d :
  eval_metrices (set_field u d)
  = match u with SetMetrics v => v | SetText _ _ => eval_metrices d end.
Proof. destruct d, u as [v|[] v]; reflexivity. Qed.

Lemma handleMetricToggle_metrics metric st :
  eval_metrices (formData (handleMetricToggle metric st))
  = toggle metric (eval_metrices (formData st)).
Proof.
  unfold handleMetricToggle, handleInputChange.
  destruct (truthy_opt _); simpl; apply eval_metrices_set_field.
Qed.

Lemma toggles_NoDup (toggles : list MetricIdentifier) st :
  NoDup (eval_metrices (formData st)) →
  NoDup (eval_metrices
           (formData (foldl (λ s m, handleMetricToggle m s) st toggles))).
Proof.
  revert st. induction toggles as [|m ms IH]; intros st Hnd; simpl.
  - exact Hnd.
  - apply IH. rewrite handleMetricToggle_metrics.
    apply toggle_NoDup, Hnd.
Qed.

Lemma initial_metrics_NoDup :
  NoDup (eval_metrices (formData EvaluationForm.initial_state)).
Proof.
  simpl. unfold all_metrics.
  repeat (apply NoDup_cons_2;
          [rewrite ?elem_of_cons, elem_of_nil; intuition discriminate|]).
  apply NoDup_nil_2.
Qed.

(** C8: starting from the initial selection, whatever metrics are
    toggled, [eval_metrices] never holds an identifier twice; toggling a
    metric that is present removes it (the others stay, in order), and
    toggling an absent one appends it exactly once. *)
Theorem eval_metrices_no_duplicates :
  ∀ (toggles : list MetricIdentifier) (metric : MetricIdentifier),
    let st := foldl (λ s m, handleMetricToggle m s)
                    EvaluationForm.initial_state toggles in
    let current := eval_metrices (formData st) in
    let new := eval_metrices (formData (handleMetricToggle metric st)) in
    NoDup current
    ∧ NoDup new
    ∧ (metric ∈ current →
       (metric ∉ new) ∧ new = filter (λ m, m ≠ metric) current)
    ∧ (metric ∉ current →
       new = current ++ [metric]
       ∧ length (filter (λ m, m = metric) new) = 1).
Proof.
  intros toggles metric st current new.
  assert (Hcur : NoDup current).
  { apply toggles_NoDup, initial_metrics_NoDup. }
  assert (Hnew : new = toggle metric current).
  { apply handleMetricToggle_metrics. }
  rewrite Hnew. split; [exact Hcur|]. split; [|split].
  - apply toggle_NoDup, Hcur.
  - intros Hin. split; [apply toggle_removes, Hin|].
    apply toggle_present, Hin.
  - intros Hout. split; [apply toggle_absent, Hout|].
    apply toggle_appends_once, Hout.
Qed.

Lemma newErrors_cases d :
  let a := truthy (trim (user_query d)) in
  let b := truthy (trim (ai_response d)) in
  let c := negb (Nat.eqb (length (eval_metrices d)) 0) in
  (size (newErrors d) =? 0) = a && b && c
  ∧ newErrors d !! "user_query"
    = (if a then None else Some user_query_required)
  ∧ newErrors d !! "ai_response"
    = (if b then None else Some ai_response_required)
  ∧ newErrors d !! "eval_metrices"
    = (if c then None else Some metric_required)
  ∧ (if a && b && c then newErrors d = ∅ else True).
Proof.
  unfold newErrors.
  destruct (truthy (trim (user_query d))),
           (truthy (trim (ai_response d))),
           (length (eval_metrices d) =? 0); vm_compute; done.
Qed.

(** C4: [handleSubmit] calls [onSubmit] exactly when the query and the
    answer are non-empty after trimming and at least one metric is
    selected; then no error is shown and the request is the form's data;
    otherwise nothing is sent and every violated field gets its error
    message. *)
Theorem submit_iff_valid :
  ∀ st : FormState,
    let d := formData st in
    let st' := (handleSubmit st).1 in
    let sent := (handleSubmit st).2 in
    (is_Some sent <->
       trim (user_query d) ≠ [] ∧ trim (ai_response d) ≠ []
       ∧ eval_metrices d ≠ [])
    ∧ match sent with
      | Some request => request = requestData st ∧ errors st' = ∅
      | None => ∃ field msg, errors st' !! field = Some msg ∧ msg ≠ []
      end
    ∧ (trim (user_query d) = [] <->
         errors st' !! "user_query" = Some user_query_required)
    ∧ (trim (ai_response d) = [] <->
         errors st' !! "ai_response" = Some ai_response_required)
    ∧ (eval_metrices d = [] <->
         errors st' !! "eval_metrices" = Some metric_required)
    ∧ formData st' = formData st.
Proof.
  intros st d st' sent.
  destruct (newErrors_cases d) as (Hsize & Huq & Har & Hem & Hemp).
  assert (Hst' : errors st' = newErrors d).
  { unfold st', handleSubmit, validateForm. fold d.
    destruct (size (newErrors d) =? 0); reflexivity. }
  assert (Hsent : sent = if size (newErrors d) =? 0
                         then Some (requestData st) else None).
  { unfold sent, handleSubmit, validateForm. fold d.
    destruct (size (newErrors d) =? 0); reflexivity. }
  assert (Hdata : formData st' = formData st).
  { unfold st', handleSubmit, validateForm. fold d.
    destruct (size (newErrors d) =? 0); reflexivity. }
  rewrite Hst', Hsent, Huq, Har, Hem, Hsize. clear Hst' Hsent Hsize.
  assert (Hlen : eval_metrices d = [] <->
                 negb (length (eval_metrices d) =? 0) = false).
  { destruct (eval_metrices d); simpl; split; congruence. }
  rewrite Hlen.
  rewrite <- (truthy_false_iff (trim (user_query d))).
  rewrite <- (truthy_false_iff (trim (ai_response d))).
  destruct (truthy (trim (user_query d))),
           (truthy (trim (ai_response d))),
           (negb (length (eval_metrices d) =? 0)); simpl in *.
  all: repeat match goal with
         | |- _ ∧ _ => split
         | |- _ <-> _ => split
         | |- ∃ field msg, _ !! field = Some msg ∧ _ =>
             first
               [ exists "user_query", user_query_required;
                 split; [eassumption | discriminate]
               | exists "ai_response", ai_response_required;
                 split; [eassumption | discriminate]
               | exists "eval_metrices", metric_required;
                 split; [eassumption | discriminate] ]
         end.
  all: try reflexivity; try assumption; try congruence.
  all: try (intros H; first [ destruct H as [x H]; discriminate H
                            | destruct H as (H1 & H2 & H3); congruence
                            | discriminate H ]).
  all: eauto.
Qed.

End Form.

Section Upload.
Import EvaluationForm.

Lemma maxSize_bytes : maxSize = 10485760%N.
Proof. reflexivity. Qed.

Lemma allowedTypes_elem (t : jsstring) :
  t ∈ allowedTypes <->
  t = lit "text/plain" ∨ t = lit "application/pdf" ∨ t = lit "text/csv"
  ∨ t = lit "application/json".
Proof.
  unfold allowedTypes. rewrite !elem_of_cons, elem_of_nil. tauto.
Qed.

(** C10: a file goes on to be read and processed only if its type is one
    of the four allowed MIME types and its size is at most 10485760
    bytes; a file that violates either condition is refused with a file
    error, the uploaded file and every form field stay as they were, and
    no other error entry changes. *)
Theorem upload_validation :
  ∀ (st : FormState) (f : File.t),
    let st' := (handleFileUpload (Some f) st).1 in
    let outcome := (handleFileUpload (Some f) st).2 in
    let acceptable :=
      (File.type f = lit "text/plain" ∨ File.type f = lit "application/pdf"
       ∨ File.type f = lit "text/csv"
       ∨ File.type f = lit "application/json")
      ∧ (File.size f <= 10485760)%N in
    (outcome = Processing <-> acceptable)
    ∧ (outcome = Processing → uploadedFile st' = Some f)
    ∧ (¬ acceptable →
       outcome = Refused
       ∧ (∃ msg, errors st' !! "file" = Some msg ∧ msg ≠ [])
       ∧ uploadedFile st' = uploadedFile st
       ∧ formData st' = formData st
       ∧ isUploading st' = isUploading st
       ∧ csvRecords st' = csvRecords st
       ∧ selectedRecordIndex st' = selectedRecordIndex st
       ∧ ∀ k, k ≠ "file" → errors st' !! k = errors st !! k).
Proof.
  intros st f st' outcome acceptable.
  unfold st', outcome, acceptable, handleFileUpload, includes.
  rewrite <- allowedTypes_elem, <- maxSize_bytes.
  destruct (bool_decide (File.type f ∈ allowedTypes)) eqn:Ht; simpl.
  - apply bool_decide_eq_true in Ht.
    destruct (maxSize <? File.size f)%N eqn:Hs; simpl.
    + apply N.ltb_lt in Hs. split; [|split].
      * split; [discriminate | intros [_ H]; lia].
      * discriminate.
      * intros _. split; [reflexivity|]. split.
        { exists file_size_message. rewrite lookup_insert_eq.
          split; [reflexivity | discriminate]. }
        repeat split. intros k Hk. apply lookup_insert_ne. congruence.
    + apply N.ltb_ge in Hs. split; [|split].
      * split; [intros _; split; assumption | reflexivity].
      * reflexivity.
      * intros Hn. exfalso. apply Hn. split; assumption.
  - apply bool_decide_eq_false in Ht. split; [|split].
    + split; [discriminate | intros [H _]; contradiction].
    + discriminate.
    + intros _. split; [reflexivity|]. split.
      { exists file_type_message. rewrite lookup_insert_eq.
        split; [reflexivity | discriminate]. }
      repeat split. intros k Hk. apply lookup_insert_ne. congruence.
Qed.

End Upload.

(** ** The API client *)

Section Client.
Import Api.

(** C7, as stated, fails: a reply that needs 120 seconds arrives well
    within the 300 seconds the back end is configured to take, yet the
    client has aborted the call by then. *)
Lemma evaluate_aborts_before_backend_timeout :
  ¬ (∀ (latency : N) (reply : Settled EvaluationResponse),
       (latency <= Backend.EVALUATION_TIMEOUT * 1000)%N →
       evaluate latency reply = reply).
Proof.
  intros H.
  pose (o := mkOverallEvaluation Great (3 # 1) Platinum []).
  pose (r := mkEvaluationResponse None None None None o [] (0 # 1)).
  specialize (H 120000%N (Resolved r)).
  assert (Hle : (120000 <= Backend.EVALUATION_TIMEOUT * 1000)%N)
    by (vm_compute; discriminate).
  specialize (H Hle). vm_compute in H. discriminate H.
Qed.

(** C7, amended: the caller of [evaluate] blocks for at most 60 seconds:
    the client's timeout is 60000 ms, a reply that needs less is handed
    over unchanged, any other call is aborted with the timeout error; the
    60 seconds are shorter than the 300 seconds of the back end. *)
Theorem evaluate_blocks_sixty_seconds :
  timeout api = 60000%N
  ∧ (∀ (latency : N) (reply : Settled EvaluationResponse),
       evaluate latency reply
       = if (latency <? 60000)%N then reply else Thrown timeout_error)
  ∧ (timeout api < Backend.EVALUATION_TIMEOUT * 1000)%N.
Proof.
  split; [reflexivity|]. split.
  - intros latency reply. unfold evaluate, post, aborted. simpl.
    destruct (latency <? 60000)%N eqn:Hl.
    + apply N.ltb_lt in Hl.
      rewrite (proj2 (N.leb_gt 60000 latency)) by exact Hl. reflexivity.
    + apply N.ltb_ge in Hl.
      rewrite (proj2 (N.leb_le 60000 latency)) by exact Hl. reflexivity.
  - vm_compute. reflexivity.
Qed.

End Client.

(** ** The application state *)

Section Application.
Import Api App.

Lemma error_text_set (err : RequestError) :
  ∃ msg, error_text err = Some msg ∧ msg ≠ [].
Proof.
  unfold error_text, or_else.
  destruct err as [[d|] [m|]]; simpl.
  - destruct d as [|c d]; simpl.
    + destruct m as [|c m]; simpl; eexists; split;
        try reflexivity; discriminate.
    + eexists; split; [reflexivity | discriminate].
  - destruct d as [|c d]; simpl; eexists; split;
      try reflexivity; discriminate.
  - destruct m as [|c m]; simpl; eexists; split;
      try reflexivity; discriminate.
  - eexists; split; [reflexivity | discriminate].
Qed.

Lemma step_exclusive st st' : exclusive st → step st st' → exclusive st'.
Proof.
  intros [Hload Hres] Hstep. destruct Hstep as [st _|st outcome Hl|st _].
  - split; simpl; [auto | intros [x Hx]; discriminate].
  - destruct (Hload Hl) as [Hr He].
    destruct outcome as [response|err]; split; simpl; try discriminate.
    + intros _. exact He.
    + rewrite Hr. intros [x Hx]. discriminate.
  - split; simpl; [|reflexivity].
    intros Hl. split; reflexivity.
Qed.

Lemma reachable_exclusive st : reachable st → exclusive st.
Proof.
  induction 1 as [|st st' _ IH Hstep].
  - split; simpl; [discriminate | intros [x Hx]; discriminate].
  - eapply step_exclusive; eassumption.
Qed.

(** C6: every evaluation attempt ends with results or with an error,
    never both: when the call fails the error message is set (and is not
    empty) and no results are shown; when it succeeds the results are set
    and the error is null; and in no reachable state of the application
    are results and an error present together. *)
Theorem results_or_error :
  (∀ (st : AppState) (err : RequestError),
     let st' := handleEvaluationSubmit (Thrown err) st in
     results st' = None
     ∧ (∃ msg, error st' = Some msg ∧ msg ≠ [])
     ∧ isLoading st' = false)
  ∧ (∀ (st : AppState) (response : EvaluationResponse),
       let st' := handleEvaluationSubmit (Resolved response) st in
       results st' = Some response ∧ error st' = None
       ∧ isLoading st' = false)
  ∧ (∀ st : AppState,
       reachable st → ¬ (is_Some (results st) ∧ is_Some (error st)))
  ∧ (∀ (st : AppState) (err : RequestError),
       reachable st → isLoading st = true →
       results (submit_settle (Thrown err) st) = None).
Proof.
  split; [|split; [|split]].
  - intros st err st'. unfold st'. simpl.
    split; [reflexivity|]. split; [apply error_text_set | reflexivity].
  - intros st response st'. unfold st'. simpl. repeat split.
  - intros st Hr [Hres [e He]].
    apply reachable_exclusive in Hr. destruct Hr as [_ Hx].
    rewrite (Hx Hres) in He. discriminate.
  - intros st err Hr Hl. simpl.
    apply reachable_exclusive in Hr. destruct Hr as [Hx _].
    apply Hx, Hl.
Qed.

End Application.

(** ** CSV rows *)

Section CsvRows.
Import EvaluationForm Csv.

Lemma drop_lookup_None (row : jsstring) i :
  row !! i = None → drop i row = [].
Proof. intros H. apply drop_ge. apply lookup_ge_None. exact H. Qed.

Lemma drop_lookup_Some (row : jsstring) i c :
  row !! i = Some c → drop i row = c :: drop (S i) row.
Proof. intros H. apply drop_S. exact H. Qed.

Lemma next_is_quote (row : jsstring) i :
  bool_decide (row !! (i + 1) = Some quote)
  = match drop (S i) row with
    | next :: _ => bool_decide (next = quote)
    | [] => false
    end.
Proof.
  replace (i + 1) with (S i) by lia.
  destruct (row !! S i) as [next|] eqn:Hn.
  - rewrite (drop_lookup_Some _ _ _ Hn).
    apply bool_decide_ext. split; congruence.
  - rewrite (drop_lookup_None _ _ Hn). reflexivity.
Qed.

(** The loop over indices and the scan of the unread part agree. *)
Lemma parseCSVRow_loop_scan row i current inQuotes result :
  parseCSVRow_loop row i current inQuotes result
  = scan (drop i row) current inQuotes result.
Proof.
  funelim (parseCSVRow_loop row i current inQuotes result).
  - rewrite (drop_lookup_None _ _ e). reflexivity.
  - rewrite H. rewrite (drop_lookup_Some _ _ _ Hchar). simpl.
    rewrite Heq0. rewrite next_is_quote in Heq.
    replace (i + 2) with (S (S i)) by lia.
    destruct (drop (S i) row) as [|next rest] eqn:Hd.
    + rewrite andb_false_r in Heq. discriminate.
    + rewrite Heq.
      assert (Hrest : drop (S (S i)) row = rest).
      { replace (S (S i)) with (S i + 1) by lia.
        rewrite <- (drop_drop row 1 (S i)). rewrite Hd. reflexivity. }
      rewrite Hrest. reflexivity.
  - rewrite H. rewrite (drop_lookup_Some _ _ _ Hchar). simpl.
    rewrite Heq0. rewrite next_is_quote in Heq.
    replace (i + 1) with (S i) by lia.
    destruct (drop (S i) row) as [|next rest] eqn:Hd.
    + reflexivity.
    + rewrite Heq. reflexivity.
  - rewrite H. rewrite (drop_lookup_Some _ _ _ Hchar). simpl.
    rewrite Heq0, Heq. replace (i + 1) with (S i) by lia. reflexivity.
  - rewrite H. rewrite (drop_lookup_Some _ _ _ Hchar). simpl.
    rewrite Heq0, Heq. replace (i + 1) with (S i) by lia. reflexivity.
Qed.

Lemma parseCSVRow_scan row : parseCSVRow row = scan row [] false [].
Proof. unfold parseCSVRow. rewrite parseCSVRow_loop_scan. reflexivity. Qed.

(** The loop only ever adds fields, and adds the last one when it ends. *)
Lemma parseCSVRow_loop_length row i current inQuotes result :
  length result < length (parseCSVRow_loop row i current inQuotes result).
Proof.
  funelim (parseCSVRow_loop row i current inQuotes result).
  - rewrite length_app. simpl. lia.
  - assumption.
  - assumption.
  - rewrite length_app in H. simpl in H. lia.
  - assumption.
Qed.

(** Inside quotes, an escaped field is read back character by
    character. *)
Lemma scan_escape field tail current result :
  scan (escape field ++ tail) current true result
  = scan tail (current ++ field) true result.
Proof.
  revert current. induction field as [|c field IH]; intros current.
  - simpl. rewrite app_nil_r. reflexivity.
  - unfold escape. rewrite bind_cons. fold (escape field).
    destruct (bool_decide (c = quote)) eqn:Hc.
    + apply bool_decide_eq_true in Hc. subst c. simpl.
      rewrite IH. rewrite <- app_assoc. reflexivity.
    + apply bool_decide_eq_false in Hc. simpl.
      rewrite decide_False by exact Hc.
      rewrite andb_false_r. rewrite IH. rewrite <- app_assoc. reflexivity.
Qed.

(** The opening quote of a field only switches the quote state. *)
Lemma scan_open rest result :
  scan (quote :: rest) [] false result = scan rest [] true result.
Proof. simpl. destruct rest; reflexivity. Qed.

(** The closing quote at the end of the row ends the last field. *)
Lemma scan_close_end current result :
  scan [quote] current true result = result ++ [trim current].
Proof. reflexivity. Qed.

(** The closing quote followed by a comma ends a field and starts the
    next one. *)
Lemma scan_close_comma rest current result :
  scan (quote :: comma :: rest) current true result
  = scan rest [] false (result ++ [trim current]).
Proof. reflexivity. Qed.

Lemma scan_encode_row f fs result :
  scan (encode_row (f :: fs)) [] false result
  = result ++ map trim (f :: fs).
Proof.
  revert f result. induction fs as [|g fs IH]; intros f result.
  - change (encode_row [f]) with (quote :: escape f ++ [quote]).
    rewrite scan_open, scan_escape, scan_close_end. reflexivity.
  - change (encode_row (f :: g :: fs))
      with (quote :: (escape f ++ [quote]) ++ comma :: encode_row (g :: fs)).
    rewrite <- app_assoc.
    rewrite scan_open, scan_escape.
    change ([quote] ++ comma :: encode_row (g :: fs))
      with (quote :: comma :: encode_row (g :: fs)).
    rewrite scan_close_comma, IH. rewrite <- app_assoc. reflexivity.
Qed.

(** C9, as stated, fails for the empty list of fields: its encoding is
    the empty row, which is read back as one empty field. *)
Lemma parseCSVRow_empty_row :
  parseCSVRow (encode_row []) ≠ map trim [].
Proof. vm_compute. discriminate. Qed.

(** C9, amended: [parseCSVRow] is total and returns at least one field
    for every row, and it reads back every non-empty list of fields
    written in quoted form, up to the white space around each field. *)
Theorem parseCSVRow_reads_encoded_row :
  (∀ row : jsstring, 1 <= length (parseCSVRow row))
  ∧ (∀ (f : jsstring) (fs : list jsstring),
       parseCSVRow (encode_row (f :: fs)) = map trim (f :: fs)).
Proof.
  split.
  - intros row. unfold parseCSVRow.
    pose proof (parseCSVRow_loop_length row 0 [] false []) as H.
    simpl in H. lia.
  - intros f fs. rewrite parseCSVRow_scan. apply scan_encode_row.
Qed.

End CsvRows.

(** ** Aggregation *)

Section Aggregation.
Import Backend Backend.Aggregator.

Lemma successes_skip_failure (l1 l2 : list (option MetricEvaluation)) :
  successes (l1 ++ None :: l2) = successes (l1 ++ l2).
Proof. unfold successes. rewrite !omap_app. reflexivity. Qed.

Lemma bucket_cases (q : Q) :
  ((5 # 2 <= q)%Q ∧ bucket q = Great)
  ∨ ((3 # 2 <= q)%Q ∧ (q < 5 # 2)%Q ∧ bucket q = Good)
  ∨ ((1 # 2 <= q)%Q ∧ (q < 3 # 2)%Q ∧ bucket q = Fair)
  ∨ ((q < 1 # 2)%Q ∧ bucket q = Poor).
Proof.
  unfold bucket.
  destruct (Qle_bool (5 # 2) q) eqn:H1.
  { left. split; [apply Qle_bool_iff, H1 | reflexivity]. }
  assert (L1 : (q < 5 # 2)%Q).
  { apply Qnot_le_lt. intros H. apply Qle_bool_iff in H. congruence. }
  destruct (Qle_bool (3 # 2) q) eqn:H2.
  { right; left. repeat split; [apply Qle_bool_iff, H2 | exact L1]. }
  assert (L2 : (q < 3 # 2)%Q).
  { apply Qnot_le_lt. intros H. apply Qle_bool_iff in H. congruence. }
  destruct (Qle_bool (1 # 2) q) eqn:H3.
  { right; right; left. repeat split; [apply Qle_bool_iff, H3 | exact L2]. }
  right; right; right. split; [|reflexivity].
  apply Qnot_le_lt. intros H. apply Qle_bool_iff in H. congruence.
Qed.

(** C2: when at least one metric completed, aggregation returns the
    exact mean of the scores of the completed metrics only (failures
    count neither in the sum nor in the number divided by), and rating
    and badge follow the thresholds 2.5, 1.5 and 0.5. *)
Theorem aggregate_mean_of_completed :
  ∀ (summarize : list MetricIdentifier → nat → Rating → jsstring)
    (results : list (option MetricEvaluation)),
    successes results ≠ [] →
    ∃ o : OverallEvaluation,
      aggregate summarize results = inr o
      ∧ (overall_score o ==
         inject_Z (foldr Z.add 0%Z
                     (map (λ m, score_value (score m)) (successes results)))
         / inject_Z (Z.of_nat (length (successes results))))%Q
      ∧ ((5 # 2 <= overall_score o)%Q →
         overall_rating o = Great ∧ overall_badge o = Platinum)
      ∧ ((3 # 2 <= overall_score o)%Q ∧ (overall_score o < 5 # 2)%Q →
         overall_rating o = Good ∧ overall_badge o = Gold)
      ∧ ((1 # 2 <= overall_score o)%Q ∧ (overall_score o < 3 # 2)%Q →
         overall_rating o = Fair ∧ overall_badge o = Silver)
      ∧ ((overall_score o < 1 # 2)%Q →
         overall_rating o = Poor ∧ overall_badge o = Bronze)
      ∧ (∀ l1 l2, results = l1 ++ None :: l2 →
           ∃ o', aggregate summarize (l1 ++ l2) = inr o'
                 ∧ overall_score o' = overall_score o
                 ∧ overall_rating o' = overall_rating o
                 ∧ overall_badge o' = overall_badge o).
Proof.
  intros summarize results Hne. unfold aggregate.
  destruct (successes results) as [|m l] eqn:HS; [contradiction|].
  eexists. split; [reflexivity|]. simpl overall_score.
  simpl overall_rating. simpl overall_badge.
  set (q := mean (m :: l)).
  split.
  { unfold q, mean. assert (Ht : ∀ l', total l'
      = foldr Z.add 0%Z (map (λ m, score_value (score m)) l')).
    { induction l' as [|x l' IH]; simpl; [reflexivity|]. rewrite IH.
      reflexivity. }
    rewrite Ht. reflexivity. }
  assert (Hskip : ∀ l1 l2, results = l1 ++ None :: l2 →
            ∃ o', aggregate summarize (l1 ++ l2) = inr o'
                  ∧ overall_score o' = q
                  ∧ overall_rating o' = bucket q
                  ∧ overall_badge o' = badge_of_rating (bucket q)).
  { intros l1 l2 ->. rewrite successes_skip_failure in HS.
    unfold aggregate. rewrite HS. eexists. split; [reflexivity|].
    simpl. repeat split; reflexivity. }
  destruct (bucket_cases q)
    as [[H1 Hb]|[(H1 & H2 & Hb)|[(H1 & H2 & Hb)|[H1 Hb]]]];
    rewrite Hb in *; simpl in Hskip |- *.
  all: split_and!; try exact Hskip.
  all: intros H; try (split; reflexivity).
  all: exfalso; repeat match goal with H : _ ∧ _ |- _ => destruct H end.
  all: match goal with
       | Hlo : (?a <= ?x)%Q, Hhi : (?x < ?b)%Q |- _ =>
           apply (Qlt_not_le _ _ Hhi); apply Qle_trans with (2 := Hlo);
           vm_compute; discriminate
       end.
Qed.

End Aggregation.

Section AggregationExamples.
Import Backend Backend.Aggregator.

Lemma aggregate_mean_of_completed_witness :
  successes Samples.one_failure ≠ []
  ∧ ∃ o : OverallEvaluation,
      aggregate Samples.no_summary Samples.one_failure = inr o
      ∧ (overall_score o ==
         inject_Z (foldr Z.add 0%Z
                     (map (λ m, score_value (score m))
                          (successes Samples.one_failure)))
         / inject_Z (Z.of_nat (length (successes Samples.one_failure))))%Q
      ∧ ((5 # 2 <= overall_score o)%Q →
         overall_rating o = Great ∧ overall_badge o = Platinum)
      ∧ ((3 # 2 <= overall_score o)%Q ∧ (overall_score o < 5 # 2)%Q →
         overall_rating o = Good ∧ overall_badge o = Gold)
      ∧ ((1 # 2 <= overall_score o)%Q ∧ (overall_score o < 3 # 2)%Q →
         overall_rating o = Fair ∧ overall_badge o = Silver)
      ∧ ((overall_score o < 1 # 2)%Q →
         overall_rating o = Poor ∧ overall_badge o = Bronze)
      ∧ (∀ l1 l2, Samples.one_failure = l1 ++ None :: l2 →
           ∃ o', aggregate Samples.no_summary (l1 ++ l2) = inr o'
                 ∧ overall_score o' = overall_score o
                 ∧ overall_rating o' = overall_rating o
                 ∧ overall_badge o' = overall_badge o).
Proof.
  split; [discriminate|].
  apply (aggregate_mean_of_completed Samples.no_summary Samples.one_failure).
  discriminate.
Defined.

(** One failure and scores 3, 3, 2: the mean is 8/3, which is 2.667 to
    three decimals, and not 8/4; the bucket is Great, the badge
    Platinum. *)
Example aggregate_one_failure :
  ∃ o : OverallEvaluation,
    aggregate Samples.no_summary Samples.one_failure = inr o
    ∧ (overall_score o == 8 # 3)%Q
    ∧ (26665 # 10000 <= overall_score o)%Q
    ∧ (overall_score o < 26675 # 10000)%Q
    ∧ ¬ (overall_score o == 8 # 4)%Q
    ∧ overall_rating o = Great ∧ overall_badge o = Platinum.
Proof.
  eexists. split; [vm_compute; reflexivity|]. simpl.
  split_and!; try reflexivity; vm_compute; congruence.
Qed.

(** The order in which the results arrive does not matter. *)
Lemma aggregate_order_independent summarize
    (results results' : list (option MetricEvaluation)) :
  results ≡ₚ results' →
  match aggregate summarize results, aggregate summarize results' with
  | inr o, inr o' =>
      overall_score o = overall_score o'
      ∧ overall_rating o = overall_rating o'
      ∧ overall_badge o = overall_badge o'
  | inl e, inl e' => e = e'
  | _, _ => False
  end.
Proof.
  intros Hp.
  assert (HS : successes results ≡ₚ successes results').
  { unfold successes. rewrite Hp. reflexivity. }
  assert (Ht : total (successes results) = total (successes results')).
  { induction HS as [|x l l' _ IH|x y l|l l' l'' _ IH1 _ IH2]; simpl;
      [reflexivity | rewrite IH; reflexivity | lia | congruence]. }
  assert (Hl : length (successes results) = length (successes results')).
  { rewrite HS. reflexivity. }
  assert (Hm : mean (successes results) = mean (successes results')).
  { unfold mean. rewrite Ht, Hl. reflexivity. }
  unfold aggregate.
  destruct (successes results) as [|m l], (successes results') as [|m' l'];
    try discriminate Hl; [reflexivity|].
  simpl. rewrite Hm. repeat split.
Qed.

(** With no completed metric the aggregation fails. *)
Example aggregate_nothing_completed summarize :
  aggregate summarize [None; None; None; None] = inl NoMetricsCompleted.
Proof. reflexivity. Qed.

End AggregationExamples.

(** ** A request naming one metric *)

Section SingleMetric.
Import Backend Backend.Orchestrator ResultsDisplay.

Lemma metrics_present (r : EvaluationResponse) (e : MetricEntry) :
  e ∈ metrics r <-> e ∈ entries r ∧ is_Some (data e).
Proof. unfold metrics. rewrite list_elem_of_filter. tauto. Qed.

(** The number of fields of a response that are present. *)
Lemma metrics_evaluated_count (r : EvaluationResponse) :
  metrics_evaluated r
  = length (omap id [accuracy r; hallucination r; authoritativeness r;
                     usefulness r]).
Proof.
  unfold metrics_evaluated, metrics, entries.
  destruct (accuracy r), (hallucination r), (authoritativeness r),
    (usefulness r); reflexivity.
Qed.

Lemma cards_length (r : EvaluationResponse) :
  length (cards r) = metrics_evaluated r.
Proof.
  unfold cards, metrics_evaluated, metrics, entries.
  destruct (accuracy r), (hallucination r), (authoritativeness r),
    (usefulness r); reflexivity.
Qed.

(** C5: a valid request naming only Accuracy, whose evaluator returns
    score 3, is answered with [accuracy.score = 3], badge Platinum,
    overall score 3 and overall badge Platinum, the other three metric
    fields being absent; the results view shows exactly one card, that of
    Accuracy; and for any response the view shows one card per field
    that is present and nothing for an absent one. *)
Theorem single_metric_response :
  ∀ (summarize : list MetricIdentifier → nat → Rating → jsstring)
    (evaluator : MetricIdentifier → EvaluatorOutcome)
    (new_id : jsstring) (elapsed : Q)
    (request : EvaluationRequest) (raw : RawVerdict)
    (other : EvaluationResponse),
    eval_metrices request = [Accuracy] →
    user_query request ≠ [] →
    ai_response request ≠ [] →
    evaluator Accuracy = Verdict raw →
    ordinal raw = Some 3%Z →
    (∃ (response : EvaluationResponse) (m : MetricEvaluation),
       run summarize evaluator new_id elapsed request = inr response
       ∧ accuracy response = Some m
       ∧ metric m = Accuracy ∧ score m = Score3 ∧ badge m = Platinum
       ∧ rating m = Great
       ∧ (overall_score (overall response) == 3 # 1)%Q
       ∧ overall_badge (overall response) = Platinum
       ∧ overall_rating (overall response) = Great
       ∧ hallucination response = None
       ∧ authoritativeness response = None
       ∧ usefulness response = None
       ∧ metrics response = [ {| key := "accuracy"; data := Some m |} ]
       ∧ cards response = [ card_of "accuracy" m ])
    ∧ length (cards other)
      = length (omap id [accuracy other; hallucination other;
                         authoritativeness other; usefulness other])
    ∧ (∀ e, e ∈ metrics other <-> e ∈ entries other ∧ is_Some (data e))
    ∧ metrics (mkEvaluationResponse None None None None (overall other)
                 (evaluation_id other) (processing_time other)) = [].
Proof.
  intros summarize evaluator new_id elapsed request raw other
         Hm Hq Ha He Ho.
  split; [|split; [|split]].
  - unfold run, valid. rewrite Hm. simpl.
    rewrite (proj2 (truthy_true_iff _) Hq), (proj2 (truthy_true_iff _) Ha).
    simpl. unfold Registry.resolve. simpl.
    unfold task at 1. rewrite He. unfold MetricScorer.score. rewrite Ho.
    simpl. unfold field. simpl.
    unfold task. rewrite He. unfold MetricScorer.score. rewrite Ho. simpl.
    eexists. eexists. split; [reflexivity|]. simpl.
    split_and!; reflexivity.
  - rewrite cards_length. apply metrics_evaluated_count.
  - apply metrics_present.
  - reflexivity.
Qed.

Lemma single_metric_response_witness :
  eval_metrices Samples.accuracy_only = [Accuracy]
  ∧ user_query Samples.accuracy_only ≠ []
  ∧ ai_response Samples.accuracy_only ≠ []
  ∧ Samples.always_three Accuracy = Verdict Samples.verdict_three
  ∧ ordinal Samples.verdict_three = Some 3%Z
  ∧ ∃ (response : EvaluationResponse) (m : MetricEvaluation),
      run Samples.no_summary Samples.always_three (lit "eval_1") (1 # 2)
          Samples.accuracy_only = inr response
      ∧ accuracy response = Some m
      ∧ score m = Score3 ∧ badge m = Platinum
      ∧ (overall_score (overall response) == 3 # 1)%Q
      ∧ overall_badge (overall response) = Platinum
      ∧ hallucination response = None
      ∧ authoritativeness response = None
      ∧ usefulness response = None
      ∧ cards response = [ card_of "accuracy" m ].
Proof.
  split; [reflexivity|]. split; [discriminate|]. split; [discriminate|].
  split; [reflexivity|]. split; [reflexivity|].
  destruct (single_metric_response Samples.no_summary Samples.always_three
              (lit "eval_1") (1 # 2) Samples.accuracy_only
              Samples.verdict_three
              (mkEvaluationResponse None None None None
                 (mkOverallEvaluation Poor (0 # 1) Bronze []) [] (0 # 1))
              eq_refl ltac:(discriminate) ltac:(discriminate)
              eq_refl eq_refl)
    as [(response & m & Hrun & Hacc & _ & Hs & Hb & _ & Hos & Hob & _
         & Hh & Hau & Hu & _ & Hc) _].
  exists response, m. split_and!; assumption.
Defined.

End SingleMetric.

(** ** The concurrency gate *)

Section ConcurrencyGate.
Import Backend Backend.Gate.

Lemma remove_first_length r l :
  r ∈ l → S (length (remove_first r l)) = length l.
Proof.
  induction l as [|x l IH]; intros Hin.
  - inversion Hin.
  - simpl. destruct (bool_decide (x = r)) eqn:Hx; [reflexivity|].
    apply bool_decide_eq_false in Hx. simpl. f_equal. apply IH.
    apply elem_of_cons in Hin as [Heq|Hin]; [congruence | exact Hin].
Qed.

Lemma remove_first_sublist r l : remove_first r l `sublist_of` l.
Proof.
  induction l as [|x l IH]; simpl.
  - constructor.
  - destruct (bool_decide (x = r)).
    + apply sublist_cons, reflexivity.
    + apply sublist_skip, IH.
Qed.

Lemma gate_step_ceiling ev st : ceiling (gate_step ev st).1 = ceiling st.
Proof.
  destruct ev as [r|r|r]; simpl.
  - unfold acquire. destruct (bool_decide _); reflexivity.
  - unfold release. destruct (bool_decide _); [|reflexivity].
    destruct (waiting st); reflexivity.
  - unfold expire. destruct (bool_decide _); reflexivity.
Qed.

(** One event never takes the gate above its ceiling. *)
Lemma gate_step_bounded ev st :
  length (in_flight st) <= ceiling st →
  length (in_flight (gate_step ev st).1) <= ceiling st.
Proof.
  intros Hle. destruct ev as [r|r|r]; simpl.
  - unfold acquire.
    destruct (bool_decide (length (in_flight st) < ceiling st)) eqn:Hlt;
      simpl; [|exact Hle].
    apply bool_decide_eq_true in Hlt. rewrite length_app. simpl. lia.
  - unfold release.
    destruct (bool_decide (r ∈ in_flight st)) eqn:Hin; [|exact Hle].
    apply bool_decide_eq_true in Hin.
    pose proof (remove_first_length r _ Hin) as Hlen.
    destruct (waiting st) as [|q ws]; simpl.
    + lia.
    + rewrite length_app. simpl. lia.
  - unfold expire. destruct (bool_decide _); exact Hle.
Qed.

(** Requests wait only while every permit is taken: no arrival overtakes
    the queue. *)
Lemma gate_step_queue_full ev st :
  length (in_flight st) <= ceiling st →
  (waiting st ≠ [] → length (in_flight st) = ceiling st) →
  waiting (gate_step ev st).1 ≠ [] →
  length (in_flight (gate_step ev st).1) = ceiling st.
Proof.
  intros Hle Hfull. destruct ev as [r|r|r]; simpl.
  - unfold acquire.
    destruct (bool_decide (length (in_flight st) < ceiling st)) eqn:Hlt;
      simpl.
    + apply bool_decide_eq_true in Hlt. intros Hw.
      specialize (Hfull Hw). lia.
    + apply bool_decide_eq_false in Hlt. intros _. lia.
  - unfold release.
    destruct (bool_decide (r ∈ in_flight st)) eqn:Hin; [|exact Hfull].
    apply bool_decide_eq_true in Hin.
    pose proof (remove_first_length r _ Hin) as Hlen.
    destruct (waiting st) as [|q ws]; simpl.
    + intros Hw. contradiction.
    + intros _. rewrite length_app. simpl.
      assert (Hq : length (in_flight st) = ceiling st)
        by (apply Hfull; discriminate).
      lia.
  - unfold expire.
    destruct (bool_decide (r ∈ waiting st)) eqn:Hin; [|exact Hfull].
    simpl. intros Hw. apply Hfull. intros Hnil. rewrite Hnil in Hw.
    apply Hw. reflexivity.
Qed.

Lemma run_snoc evs ev st :
  run (evs ++ [ev]) st = (gate_step ev (run evs st)).1.
Proof. unfold run. rewrite foldl_app. reflexivity. Qed.

Lemma run_bounded evs n :
  ceiling (run evs (init n)) = n
  ∧ length (in_flight (run evs (init n))) <= n
  ∧ (waiting (run evs (init n)) ≠ [] →
     length (in_flight (run evs (init n))) = n).
Proof.
  induction evs as [|ev evs (IHc & IHl & IHq)] using rev_ind.
  - simpl. split; [reflexivity|]. split; [lia|]. intros H. contradiction.
  - rewrite run_snoc. split; [|split].
    + rewrite gate_step_ceiling. exact IHc.
    + pose proof (gate_step_bounded ev (run evs (init n))) as H.
      rewrite IHc in H. apply H, IHl.
    + pose proof (gate_step_queue_full ev (run evs (init n))) as H.
      rewrite IHc in H. apply H; assumption.
Qed.

(** C3: in every state the gate can reach from empty under ceiling [n],
    at most [n] requests are past the gate, and requests wait only while
    all [n] permits are taken; an arriving request is given a permit or
    queued, never failed; when [n] requests are in flight it
    joins the queue at its end; a released permit goes to the head of the
    queue; no event reorders the queue; and the only failure at the gate
    is [Overloaded], for a request whose outer deadline expires while it
    is still queued. *)
Theorem gate_never_exceeds_ceiling :
  ∀ (n : nat) (evs : list GateEvent) (r : nat),
    let st := run evs (init n) in
    length (in_flight st) <= n
    ∧ (waiting st ≠ [] → length (in_flight st) = n)
    ∧ ((gate_step (Arrive r) st).2 = Granted
       ∨ (gate_step (Arrive r) st).2 = Queued)
    ∧ (length (in_flight st) = n →
       gate_step (Arrive r) st
       = (mkGateState n (in_flight st) (waiting st ++ [r]), Queued))
    ∧ (∀ q ws, waiting st = q :: ws → r ∈ in_flight st →
       gate_step (Release r) st
       = (mkGateState n (remove_first r (in_flight st) ++ [q]) ws,
          Released))
    ∧ (∀ ev, waiting (gate_step ev st).1
             `sublist_of`
             waiting st ++ match ev with Arrive a => [a] | _ => [] end)
    ∧ (∀ ev e, (gate_step ev st).2 = Failed e <->
               e = Overloaded ∧ ∃ x, ev = Expire x ∧ x ∈ waiting st)
    ∧ (r ∈ waiting st →
       gate_step (Expire r) st
       = (mkGateState n (in_flight st) (remove_first r (waiting st)),
          Failed Overloaded)).
Proof.
  intros n evs r st.
  destruct (run_bounded evs n) as (Hc & Hl & Hq). fold st in Hc, Hl, Hq.
  split_and!.
  - exact Hl.
  - exact Hq.
  - simpl. unfold acquire. destruct (bool_decide _); simpl; auto.
  - intros Hfull. simpl. unfold acquire.
    rewrite bool_decide_eq_false_2 by lia. rewrite Hc. reflexivity.
  - intros q ws Hw Hin. simpl. unfold release.
    rewrite bool_decide_eq_true_2 by exact Hin. rewrite Hw, Hc.
    reflexivity.
  - intros [a|a|a]; simpl.
    + unfold acquire. destruct (bool_decide _); simpl.
      * apply sublist_inserts_r. reflexivity.
      * reflexivity.
    + rewrite app_nil_r. unfold release.
      destruct (bool_decide _); [|reflexivity].
      destruct (waiting st) as [|q ws]; simpl.
      * reflexivity.
      * apply sublist_cons. reflexivity.
    + rewrite app_nil_r. unfold expire.
      destruct (bool_decide _); simpl; [|reflexivity].
      apply remove_first_sublist.
  - intros ev e. split.
    + destruct ev as [a|a|a]; simpl.
      * unfold acquire. destruct (bool_decide _); discriminate.
      * unfold release. destruct (bool_decide _); [|discriminate].
        destruct (waiting st); discriminate.
      * unfold expire.
        destruct (bool_decide (a ∈ waiting st)) eqn:Hin; [|discriminate].
        apply bool_decide_eq_true in Hin. simpl. intros [= <-].
        split; [reflexivity|]. exists a. split; [reflexivity | exact Hin].
    + intros [-> (x & -> & Hin)]. simpl. unfold expire.
      rewrite bool_decide_eq_true_2 by exact Hin. reflexivity.
  - intros Hin. simpl. unfold expire.
    rewrite bool_decide_eq_true_2 by exact Hin. rewrite Hc. reflexivity.
Qed.

(** Under the default ceiling of 5, the sixth request waits; it is let
    in, first of the queue, when a permit is released. *)
Example gate_sixth_request_waits :
  let busy := run (map Arrive [1; 2; 3; 4; 5])
                  (init MAX_CONCURRENT_EVALUATIONS) in
  in_flight busy = [1; 2; 3; 4; 5]
  ∧ gate_step (Arrive 6) busy
    = (mkGateState 5 [1; 2; 3; 4; 5] [6], Queued)
  ∧ run [Arrive 6; Arrive 7; Release 2] busy
    = mkGateState 5 [1; 3; 4; 5; 6] [7]
  ∧ gate_step (Expire 7) (run [Arrive 6; Arrive 7] busy)
    = (mkGateState 5 [1; 2; 3; 4; 5] [6], Failed Overloaded).
Proof. vm_compute. repeat split. Qed.

End ConcurrencyGate.

(** ** Worked examples *)

Section Examples.
Import EvaluationForm Csv.

(** A bare field, a quoted field holding a comma, and a quoted field
    holding a doubled quote: three fields. *)
Example parseCSVRow_mixed :
  parseCSVRow (lit "a," ++ [quote] ++ lit "b,c" ++ [quote] ++ lit ","
               ++ [quote] ++ lit "d" ++ [quote; quote] ++ lit "e" ++ [quote])
  = [lit "a"; lit "b,c"; lit "d" ++ [quote] ++ lit "e"].
Proof. vm_compute. reflexivity. Qed.

(** White space around a field is dropped, inside it is kept. *)
Example parseCSVRow_trims :
  parseCSVRow (lit "  what is it ? , 42 ")
  = [lit "what is it ?"; lit "42"].
Proof. vm_compute. reflexivity. Qed.

Example parseCSVRow_of_empty : parseCSVRow [] = [[]].
Proof. vm_compute. reflexivity. Qed.

Example encode_row_two :
  encode_row [lit "a,b"; [quote]]
  = [quote] ++ lit "a,b" ++ [quote] ++ lit ","
    ++ [quote; quote; quote; quote].
Proof. vm_compute. reflexivity. Qed.

Example trim_spaces : trim (lit "  a b  ") = lit "a b".
Proof. vm_compute. reflexivity. Qed.

Example trim_no_break_space : trim [0xA0; 0x3000; 0x09]%N = [].
Proof. vm_compute. reflexivity. Qed.

(** Toggling twice restores the selection up to order. *)
Example toggle_twice :
  toggle Accuracy (toggle Accuracy all_metrics)
  = [Hallucination; Authoritativeness; Usefulness; Accuracy].
Proof. vm_compute. reflexivity. Qed.

(** The untouched form is not submitted: both texts are missing. *)
Example submit_untouched_form :
  (handleSubmit EvaluationForm.initial_state).2 = None
  ∧ errors (handleSubmit EvaluationForm.initial_state).1 !! "user_query"
    = Some user_query_required
  ∧ errors (handleSubmit EvaluationForm.initial_state).1 !! "ai_response"
    = Some ai_response_required
  ∧ errors (handleSubmit EvaluationForm.initial_state).1 !! "eval_metrices"
    = None.
Proof. vm_compute. repeat split. Qed.

(** A query of blanks only does not count as a query. *)
Example submit_blank_query :
  let st := handleInputChange (SetText AiResponse (lit "4"))
              (handleInputChange (SetText UserQuery (lit "   "))
                 EvaluationForm.initial_state) in
  (handleSubmit st).2 = None.
Proof. vm_compute. reflexivity. Qed.

Example submit_filled_form :
  let st := handleInputChange (SetText AiResponse (lit "4"))
              (handleInputChange (SetText UserQuery (lit "What is 2+2?"))
                 EvaluationForm.initial_state) in
  (handleSubmit st).2 = Some (formData st).
Proof. vm_compute. reflexivity. Qed.

(** A text file of exactly 10 MB is read; one byte more is refused, and
    so is an image of any size. *)
Example upload_ten_megabytes :
  (handleFileUpload
     (Some (File.mk (lit "a.txt") (lit "text/plain") 10485760))
     EvaluationForm.initial_state).2 = Processing.
Proof. vm_compute. reflexivity. Qed.

Example upload_too_large :
  (handleFileUpload
     (Some (File.mk (lit "a.txt") (lit "text/plain") 10485761))
     EvaluationForm.initial_state).2 = Refused.
Proof. vm_compute. reflexivity. Qed.

Example upload_image :
  (handleFileUpload
     (Some (File.mk (lit "a.png") (lit "image/png") 10))
     EvaluationForm.initial_state).2 = Refused.
Proof. vm_compute. reflexivity. Qed.

(** The client gives up at 60 seconds. *)
Example evaluate_just_in_time (reply : Api.Settled EvaluationResponse) :
  Api.evaluate 59999 reply = reply.
Proof. reflexivity. Qed.

Example evaluate_too_late (reply : Api.Settled EvaluationResponse) :
  Api.evaluate 60000 reply = Api.Thrown Api.timeout_error.
Proof. reflexivity. Qed.

(** The message shown for a failed call: the server's detail when there
    is one, else the error's message, else a fixed text. *)
Example error_text_detail :
  App.error_text (Api.mkRequestError (Some (lit "bad request"))
                                     (Some (lit "status 400")))
  = Some (lit "bad request").
Proof. reflexivity. Qed.

Example error_text_message :
  App.error_text (Api.mkRequestError None (Some (lit "Network Error")))
  = Some (lit "Network Error").
Proof. reflexivity. Qed.

Example error_text_default :
  App.error_text (Api.mkRequestError None None)
  = Some (lit "Evaluation failed").
Proof. reflexivity. Qed.

End Examples.

(** * Further properties of the front end *)

(** ** Editing the form *)

Section FormEditing.
Import EvaluationForm FileProcessing.

Lemma text_of_set_same f v d : text_of f (set_field (SetText f v) d) = v.
Proof. destruct d, f; reflexivity. Qed.

Lemma text_of_set_other f g v d :
  f ≠ g → text_of g (set_field (SetText f v) d) = text_of g d.
Proof. intros Hne. destruct d, f, g; try reflexivity; contradiction. Qed.

Lemma text_of_set_metrics g v d :
  text_of g (set_field (SetMetrics v) d) = text_of g d.
Proof. destruct d, g; reflexivity. Qed.

Lemma model_set_field u d : model (set_field u d) = model d.
Proof. destruct d, u as [v|[] v]; reflexivity. Qed.

Lemma uploaded_file_set_field u d :
  uploaded_file (set_field u d) = uploaded_file d.
Proof. destruct d, u as [v|[] v]; reflexivity. Qed.

Lemma text_field_name_inj f g : text_field_name f = text_field_name g → f = g.
Proof. destruct f, g; simpl; intros H; try reflexivity; discriminate H. Qed.

(** A request is determined by its fields. *)
Lemma request_ext (d d' : EvaluationRequest) :
  model d = model d' → eval_metrices d = eval_metrices d' →
  uploaded_file d = uploaded_file d' →
  (∀ f, text_of f d = text_of f d') → d = d'.
Proof.
  intros Hm He Hu Ht. destruct d, d'. simpl in *. subst.
  pose proof (Ht UserQuery) as H1. pose proof (Ht AiResponse) as H2.
  pose proof (Ht Chunk1) as H3. pose proof (Ht Chunk2) as H4.
  pose proof (Ht Chunk3) as H5. pose proof (Ht Chunk4) as H6.
  pose proof (Ht Chunk5) as H7. simpl in *. congruence.
Qed.

Lemma formData_handleInputChange_from closure u cur :
  formData (handleInputChange_from closure u cur)
  = set_field u (formData cur).
Proof.
  unfold handleInputChange_from. destruct (truthy_opt _); reflexivity.
Qed.

Lemma errors_handleInputChange_from closure u cur :
  errors (handleInputChange_from closure u cur)
  = if truthy_opt (errors closure !! field_name u)
    then <[field_name u := []]> (errors cur) else errors cur.
Proof.
  unfold handleInputChange_from. destruct (truthy_opt _); reflexivity.
Qed.

Lemma rest_handleInputChange_from closure u cur :
  uploadedFile (handleInputChange_from closure u cur) = uploadedFile cur
  ∧ isUploading (handleInputChange_from closure u cur) = isUploading cur
  ∧ csvRecords (handleInputChange_from closure u cur) = csvRecords cur
  ∧ selectedRecordIndex (handleInputChange_from closure u cur)
    = selectedRecordIndex cur.
Proof.
  unfold handleInputChange_from. destruct (truthy_opt _); repeat split.
Qed.

(** In an event handler that has not changed the state yet, the two
    coincide. *)
Lemma handleInputChange_from_self u st :
  handleInputChange_from st u st = handleInputChange u st.
Proof. reflexivity. Qed.

(** X1: typing into a text field stores the text in that field alone,
    blanks the error of that field if one is shown, and leaves every
    other field, every other error and the rest of the state as they
    were; it never makes an error appear. *)
Theorem input_change_touches_one_field :
  ∀ (f : TextField) (v : jsstring) (st : FormState),
    let st' := handleInputChange (SetText f v) st in
    text_of f (formData st') = v
    ∧ (∀ g, g ≠ f → text_of g (formData st') = text_of g (formData st))
    ∧ eval_metrices (formData st') = eval_metrices (formData st)
    ∧ model (formData st') = model (formData st)
    ∧ truthy_opt (errors st' !! text_field_name f) = false
    ∧ (∀ k, k ≠ text_field_name f → errors st' !! k = errors st !! k)
    ∧ (∀ k, truthy_opt (errors st' !! k) = true →
            truthy_opt (errors st !! k) = true)
    ∧ uploadedFile st' = uploadedFile st
    ∧ csvRecords st' = csvRecords st
    ∧ selectedRecordIndex st' = selectedRecordIndex st
    ∧ isUploading st' = isUploading st.
Proof.
  intros f v st st'. unfold st'. rewrite <- handleInputChange_from_self.
  rewrite formData_handleInputChange_from, errors_handleInputChange_from.
  destruct (rest_handleInputChange_from st (SetText f v) st)
    as (Hu & Hi & Hc & Hs).
  change (field_name (SetText f v)) with (text_field_name f).
  split_and!; try assumption.
  - apply text_of_set_same.
  - intros g Hg. apply text_of_set_other. congruence.
  - apply eval_metrices_set_field.
  - apply model_set_field.
  - destruct (truthy_opt (errors st !! text_field_name f)) eqn:Ht.
    + rewrite lookup_insert_eq. reflexivity.
    + exact Ht.
  - intros k Hk.
    destruct (truthy_opt (errors st !! text_field_name f));
      [|reflexivity].
    apply lookup_insert_ne. congruence.
  - intros k.
    destruct (truthy_opt (errors st !! text_field_name f)) eqn:Ht;
      [|tauto].
    destruct (decide (k = text_field_name f)) as [->|Hne].
    + rewrite lookup_insert_eq. discriminate.
    + rewrite lookup_insert_ne by congruence. tauto.
Qed.

Lemma filter_ne_absent {A : Type} `{EqDecision A} (x : A) (l : list A) :
  x ∉ l → filter (λ m, m ≠ x) l = l.
Proof.
  intros Hx. induction l as [|y l IH]; [reflexivity|].
  apply not_elem_of_cons in Hx as [Hne Hl].
  rewrite filter_cons, decide_True by congruence.
  rewrite IH by exact Hl. reflexivity.
Qed.

Lemma filter_ne_perm {A : Type} `{EqDecision A} (x : A) (l : list A) :
  NoDup l → x ∈ l → filter (λ m, m ≠ x) l ++ [x] ≡ₚ l.
Proof.
  intros Hnd Hx. induction l as [|y l IH]; [inversion Hx|].
  apply NoDup_cons in Hnd as [Hy Hnd].
  rewrite filter_cons. destruct (decide (y = x)) as [->|Hne].
  - rewrite decide_False by tauto.
    rewrite filter_ne_absent by exact Hy.
    rewrite Permutation_app_comm. reflexivity.
  - rewrite decide_True by exact Hne. simpl. f_equiv. apply IH.
    + exact Hnd.
    + apply elem_of_cons in Hx as [Heq|Hx]; [congruence | exact Hx].
Qed.

(** X2: clicking the same metric twice gives back the selection there
    was, up to the order of the metrics, provided the selection held no
    metric twice: a metric that was selected is taken out and put back at
    the end, the others keeping their order; a metric that was not
    selected leaves the list exactly as it was. *)
Theorem toggle_twice_restores_selection :
  ∀ (metric : MetricIdentifier) (st : FormState),
    NoDup (eval_metrices (formData st)) →
    eval_metrices
      (formData (handleMetricToggle metric (handleMetricToggle metric st)))
    ≡ₚ eval_metrices (formData st)
    ∧ (metric ∈ eval_metrices (formData st) →
       eval_metrices
         (formData (handleMetricToggle metric (handleMetricToggle metric st)))
       = filter (λ m, m ≠ metric) (eval_metrices (formData st)) ++ [metric])
    ∧ (metric ∉ eval_metrices (formData st) →
       eval_metrices
         (formData (handleMetricToggle metric (handleMetricToggle metric st)))
       = eval_metrices (formData st)).
Proof.
  intros metric st Hnd. rewrite !handleMetricToggle_metrics.
  set (l := eval_metrices (formData st)) in *.
  destruct (decide (metric ∈ l)) as [Hin|Hout].
  - assert (Heq : toggle metric (toggle metric l)
                  = filter (λ m, m ≠ metric) l ++ [metric]).
    { rewrite (toggle_present metric l Hin).
      apply toggle_absent.
      intros H. apply list_elem_of_filter in H. destruct H as [H _].
      apply H. reflexivity. }
    rewrite Heq. split_and!.
    + apply filter_ne_perm; assumption.
    + intros _. reflexivity.
    + intros Hout. contradiction.
  - assert (Heq : toggle metric (toggle metric l) = l).
    { rewrite (toggle_absent metric l Hout).
      rewrite toggle_present by (apply elem_of_app; right; left).
      rewrite filter_app, filter_ne_absent by exact Hout.
      rewrite filter_cons, decide_False by tauto.
      rewrite filter_nil. apply app_nil_r. }
    rewrite Heq. split_and!.
    + reflexivity.
    + intros Hin. contradiction.
    + intros _. reflexivity.
Qed.

Lemma toggle_twice_restores_selection_witness :
  NoDup (eval_metrices (formData EvaluationForm.initial_state))
  ∧ (eval_metrices
       (formData (handleMetricToggle Hallucination
                    (handleMetricToggle Hallucination
                       EvaluationForm.initial_state)))
     ≡ₚ eval_metrices (formData EvaluationForm.initial_state)
     ∧ (Hallucination ∈ eval_metrices (formData EvaluationForm.initial_state)
        → eval_metrices
            (formData (handleMetricToggle Hallucination
                         (handleMetricToggle Hallucination
                            EvaluationForm.initial_state)))
          = filter (λ m, m ≠ Hallucination)
                   (eval_metrices (formData EvaluationForm.initial_state))
            ++ [Hallucination])
     ∧ (Hallucination ∉ eval_metrices (formData EvaluationForm.initial_state)
        → eval_metrices
            (formData (handleMetricToggle Hallucination
                         (handleMetricToggle Hallucination
                            EvaluationForm.initial_state)))
          = eval_metrices (formData EvaluationForm.initial_state))).
Proof.
  split.
  - exact initial_metrics_NoDup.
  - apply (toggle_twice_restores_selection Hallucination
             EvaluationForm.initial_state).
    exact initial_metrics_NoDup.
Defined.

(** X3: whatever the form showed before, after an attempt to submit the
    only errors left are those of the three validated fields, each with a
    non-empty message: an earlier file error is gone. *)
Theorem submit_replaces_errors :
  ∀ (st : FormState) (k : string) (msg : jsstring),
    let st' := (handleSubmit st).1 in
    errors st' !! "file" = None
    ∧ (errors st' !! k = Some msg →
       (k = "user_query" ∨ k = "ai_response" ∨ k = "eval_metrices")
       ∧ msg ≠ []).
Proof.
  intros st k msg st'.
  assert (Hst' : errors st' = newErrors (formData st)).
  { unfold st', handleSubmit, validateForm.
    destruct (size (newErrors (formData st)) =? 0); reflexivity. }
  rewrite Hst'. unfold newErrors.
  destruct (truthy (trim (user_query (formData st)))),
           (truthy (trim (ai_response (formData st)))),
           (length (eval_metrices (formData st)) =? 0); simpl.
  all: split; [reflexivity|].
  all: rewrite ?lookup_insert, ?lookup_empty.
  all: intros Hmsg; repeat case_decide; subst; try discriminate Hmsg.
  all: injection Hmsg as <-.
  all: split; [tauto | discriminate].
Qed.

End FormEditing.

(** ** More on CSV rows *)

Section CsvRowsMore.
Import EvaluationForm Csv CsvPlain.

Lemma trimStart_split (s : jsstring) : ∃ w, s = w ++ trimStart s.
Proof.
  induction s as [|c s [w IH]]; simpl.
  - exists []. reflexivity.
  - destruct (is_whitespace c).
    + exists (c :: w). simpl. f_equal. exact IH.
    + exists []. reflexivity.
Qed.

Lemma trimStart_fixed (s : jsstring) :
  match s with [] => True | c :: _ => is_whitespace c = false end →
  trimStart s = s.
Proof. destruct s as [|c s]; simpl; [reflexivity|]. intros ->. reflexivity. Qed.

(** What [trim] returns neither starts nor ends with white space. *)
Lemma trim_trimmed (s : jsstring) : trimmed (trim s).
Proof.
  unfold trimmed, trim, trimEnd. rewrite reverse_involutive.
  set (t := trimStart s).
  split.
  - destruct (trimStart_split (reverse t)) as [w Hw].
    destruct (reverse (trimStart (reverse t))) as [|c u] eqn:Hu; [exact I|].
    apply (f_equal reverse) in Hw.
    rewrite reverse_involutive, reverse_app, Hu in Hw. simpl in Hw.
    apply (trimStart_head s c (u ++ reverse w)). exact Hw.
  - destruct (trimStart (reverse t)) as [|c u] eqn:Hu; [exact I|].
    apply (trimStart_head _ _ _ Hu).
Qed.

Lemma trim_fixed (s : jsstring) : trimmed s → trim s = s.
Proof.
  intros [Hhead Hlast]. unfold trim, trimEnd.
  rewrite (trimStart_fixed s Hhead).
  rewrite (trimStart_fixed (reverse s) Hlast).
  apply reverse_involutive.
Qed.

Lemma scan_plain field rest current result :
  plain field →
  scan (field ++ rest) current false result
  = scan rest (current ++ field) false result.
Proof.
  intros [Hq Hc]. revert current.
  induction field as [|c field IH]; intros current.
  - simpl. rewrite app_nil_r. reflexivity.
  - apply not_elem_of_cons in Hq as [Hq1 Hq]. apply not_elem_of_cons in Hc as [Hc1 Hc].
    simpl. rewrite decide_False by congruence.
    rewrite bool_decide_eq_false_2 by congruence. simpl.
    rewrite (IH Hq Hc). rewrite <- app_assoc. reflexivity.
Qed.

Lemma scan_comma rest current result :
  scan (comma :: rest) current false result
  = scan rest [] false (result ++ [trim current]).
Proof. reflexivity. Qed.

Lemma scan_join_row f fs result :
  Forall plain (f :: fs) →
  scan (join_row (f :: fs)) [] false result = result ++ map trim (f :: fs).
Proof.
  revert f result. induction fs as [|g fs IH]; intros f result Hp.
  - apply Forall_cons in Hp as [Hf _].
    change (join_row [f]) with f. rewrite <- (app_nil_r f) at 1.
    rewrite (scan_plain f [] [] result Hf). reflexivity.
  - apply Forall_cons in Hp as [Hf Hp].
    change (join_row (f :: g :: fs)) with (f ++ comma :: join_row (g :: fs)).
    rewrite (scan_plain f _ [] _ Hf), scan_comma, (IH g _ Hp).
    rewrite <- app_assoc. reflexivity.
Qed.

(** X4: a row of fields written without quotes (no field holds a quote
    or a comma) and separated by commas is read back as those fields,
    each trimmed. *)
Theorem parseCSVRow_reads_plain_row :
  ∀ (f : jsstring) (fs : list jsstring),
    Forall plain (f :: fs) →
    parseCSVRow (join_row (f :: fs)) = map trim (f :: fs).
Proof.
  intros f fs Hp. rewrite parseCSVRow_scan. apply scan_join_row, Hp.
Qed.

Lemma plain_lit_checked (l : list jsstring) :
  forallb (λ f, negb (bool_decide (quote ∈ f))
                && negb (bool_decide (comma ∈ f))) l = true →
  Forall plain l.
Proof.
  induction l as [|f l IH]; simpl; [constructor|].
  intros H. apply andb_true_iff in H as [Hf Hl].
  apply andb_true_iff in Hf as [Hq Hc].
  apply negb_true_iff, bool_decide_eq_false in Hq.
  apply negb_true_iff, bool_decide_eq_false in Hc.
  constructor; [split; assumption | apply IH, Hl].
Defined.

Lemma parseCSVRow_reads_plain_row_witness :
  Forall plain [lit " What is 2+2? "; lit "4"; []]
  ∧ parseCSVRow (join_row [lit " What is 2+2? "; lit "4"; []])
    = map trim [lit " What is 2+2? "; lit "4"; []].
Proof.
  split.
  - apply plain_lit_checked. vm_compute. reflexivity.
  - apply (parseCSVRow_reads_plain_row (lit " What is 2+2? ") [lit "4"; []]).
    apply plain_lit_checked. vm_compute. reflexivity.
Defined.

Lemma scan_count_commas row current result :
  quote ∉ row →
  length (scan row current false result)
  = length result + 1 + length (filter (λ c, c = comma) row).
Proof.
  revert current result.
  induction row as [|c row IH]; intros current result Hq.
  - simpl. rewrite length_app. simpl. lia.
  - apply not_elem_of_cons in Hq as [Hc Hq].
    simpl scan. rewrite decide_False by congruence.
    unfold jsstring in *.
    destruct (decide (c = comma)) as [->|Hne].
    + rewrite filter_cons_True by reflexivity.
      rewrite bool_decide_eq_true_2 by reflexivity. simpl andb. cbv iota.
      rewrite (IH _ _ Hq). rewrite length_app. simpl. lia.
    + rewrite filter_cons_False by exact Hne.
      rewrite bool_decide_eq_false_2 by exact Hne. simpl andb. cbv iota.
      rewrite (IH _ _ Hq). lia.
Qed.

(** X5: in a row without any quote, every comma separates two fields:
    the number of fields is the number of commas plus one, so no field is
    dropped or merged, empty ones included. *)
Theorem parseCSVRow_counts_commas :
  ∀ row : jsstring,
    quote ∉ row →
    length (parseCSVRow row) = S (length (filter (λ c, c = comma) row)).
Proof.
  intros row Hq. rewrite parseCSVRow_scan.
  rewrite (scan_count_commas row [] [] Hq). simpl. lia.
Qed.

Lemma parseCSVRow_counts_commas_witness :
  (quote ∉ lit "a,,b,")
  ∧ length (parseCSVRow (lit "a,,b,"))
    = S (length (filter (λ c, c = comma) (lit "a,,b,"))).
Proof.
  assert (Hq : quote ∉ lit "a,,b,").
  { apply (bool_decide_unpack (quote ∉ lit "a,,b,")). vm_compute. exact I. }
  split; [exact Hq|]. apply (parseCSVRow_counts_commas (lit "a,,b,") Hq).
Defined.

Lemma scan_in_quotes_to_end s current result :
  quote ∉ s →
  scan s current true result = result ++ [trim (current ++ s)].
Proof.
  revert current. induction s as [|c s IH]; intros current Hq.
  - simpl. rewrite app_nil_r. reflexivity.
  - apply not_elem_of_cons in Hq as [Hc Hq].
    simpl scan. rewrite decide_False by congruence.
    rewrite andb_false_r. rewrite (IH _ Hq). rewrite <- app_assoc.
    reflexivity.
Qed.

Lemma scan_plain_fields fields rest result :
  Forall plain fields →
  scan (flat_map (λ f, f ++ [comma]) fields ++ rest) [] false result
  = scan rest [] false (result ++ map trim fields).
Proof.
  revert result. induction fields as [|f fields IH]; intros result Hp.
  - simpl. rewrite app_nil_r. reflexivity.
  - apply Forall_cons in Hp as [Hf Hp]. simpl flat_map.
    rewrite <- !app_assoc. rewrite (scan_plain f _ [] _ Hf).
    simpl app. rewrite scan_comma, (IH _ Hp).
    rewrite <- app_assoc. reflexivity.
Qed.

(** X6: a quote that is opened and never closed is no error: everything
    after it up to the end of the row, commas included, is one field, and
    the plain fields before it are read as usual. *)
Theorem parseCSVRow_unclosed_quote :
  ∀ (fields : list jsstring) (s : jsstring),
    Forall plain fields →
    quote ∉ s →
    parseCSVRow (flat_map (λ f, f ++ [comma]) fields ++ quote :: s)
    = map trim fields ++ [trim s].
Proof.
  intros fields s Hp Hq. rewrite parseCSVRow_scan.
  rewrite (scan_plain_fields fields _ [] Hp).
  rewrite scan_open. rewrite (scan_in_quotes_to_end s [] _ Hq).
  reflexivity.
Qed.

Lemma parseCSVRow_unclosed_quote_witness :
  Forall plain [lit "a"]
  ∧ (quote ∉ lit "b,c , d")
  ∧ parseCSVRow (flat_map (λ f, f ++ [comma]) [lit "a"]
                 ++ quote :: lit "b,c , d")
    = map trim [lit "a"] ++ [trim (lit "b,c , d")].
Proof.
  assert (Hp : Forall plain [lit "a"]).
  { apply plain_lit_checked. vm_compute. reflexivity. }
  assert (Hq : quote ∉ lit "b,c , d").
  { apply (bool_decide_unpack (quote ∉ lit "b,c , d")).
    vm_compute. exact I. }
  split; [exact Hp|]. split; [exact Hq|].
  apply (parseCSVRow_unclosed_quote [lit "a"] (lit "b,c , d") Hp Hq).
Defined.

Lemma parseCSVRow_loop_trimmed row i current inQuotes result :
  Forall trimmed result →
  Forall trimmed (parseCSVRow_loop row i current inQuotes result).
Proof.
  funelim (parseCSVRow_loop row i current inQuotes result); intros Hres.
  - apply Forall_app. split; [exact Hres|].
    constructor; [apply trim_trimmed | constructor].
  - auto.
  - auto.
  - match goal with IH : Forall trimmed _ → _ |- _ => apply IH end.
    apply Forall_app. split; [exact Hres|].
    constructor; [apply trim_trimmed | constructor].
  - auto.
Qed.

(** X7: whatever the row, no field returned by [parseCSVRow] starts or
    ends with white space, and trimming a returned field again changes
    nothing. *)
Theorem parseCSVRow_fields_trimmed :
  ∀ row : jsstring,
    Forall (λ field, trimmed field ∧ trim field = field) (parseCSVRow row).
Proof.
  intros row.
  pose proof (parseCSVRow_loop_trimmed row 0 [] false []
                (Forall_nil_2 _)) as H.
  fold (parseCSVRow row) in H.
  eapply Forall_impl; [exact H|].
  intros field Hf. split; [exact Hf | apply trim_fixed, Hf].
Qed.

End CsvRowsMore.

(** ** Filling the form from a record *)

Section Populate.
Import EvaluationForm FileProcessing.

Lemma text_fields_complete (f : TextField) : f ∈ text_fields.
Proof. destruct f; unfold text_fields; set_solver. Qed.

Lemma populated_idem record f old :
  populated record f (populated record f old) = populated record f old.
Proof.
  unfold populated. destruct (record !! text_field_name f) as [v|];
    [|reflexivity].
  destruct (truthy v); reflexivity.
Qed.

Lemma populated_untouched record f old :
  touched record f = false → populated record f old = old.
Proof.
  unfold touched, populated, truthy_opt.
  destruct (record !! text_field_name f) as [v|]; [|reflexivity].
  intros ->. reflexivity.
Qed.

Lemma text_of_populate_field closure record cur f g :
  text_of g (formData (populate_field closure record cur f))
  = if decide (g = f) then populated record g (text_of g (formData cur))
    else text_of g (formData cur).
Proof.
  unfold populate_field, populated.
  destruct (decide (g = f)) as [->|Hne].
  - destruct (record !! text_field_name f) as [v|]; [|reflexivity].
    destruct (truthy v); [|reflexivity].
    rewrite formData_handleInputChange_from. apply text_of_set_same.
  - destruct (record !! text_field_name f) as [v|]; [|reflexivity].
    destruct (truthy v); [|reflexivity].
    rewrite formData_handleInputChange_from. apply text_of_set_other.
    congruence.
Qed.

Lemma frame_populate_field closure record cur f :
  let st' := populate_field closure record cur f in
  eval_metrices (formData st') = eval_metrices (formData cur)
  ∧ model (formData st') = model (formData cur)
  ∧ uploaded_file (formData st') = uploaded_file (formData cur)
  ∧ uploadedFile st' = uploadedFile cur
  ∧ isUploading st' = isUploading cur
  ∧ csvRecords st' = csvRecords cur
  ∧ selectedRecordIndex st' = selectedRecordIndex cur.
Proof.
  unfold populate_field.
  destruct (record !! text_field_name f) as [v|]; [|repeat split].
  destruct (truthy v); [|repeat split]. simpl.
  rewrite formData_handleInputChange_from.
  destruct (rest_handleInputChange_from closure (SetText f v) cur)
    as (H1 & H2 & H3 & H4).
  split_and!; try assumption.
  - apply eval_metrices_set_field.
  - apply model_set_field.
  - apply uploaded_file_set_field.
Qed.

Lemma errors_populate_field closure record cur f k :
  errors (populate_field closure record cur f) !! k
  = if bool_decide (text_field_name f = k) && touched record f
       && truthy_opt (errors closure !! k)
    then Some [] else errors cur !! k.
Proof.
  unfold populate_field, touched, truthy_opt at 1.
  destruct (record !! text_field_name f) as [v|];
    [|rewrite andb_false_r; reflexivity].
  destruct (truthy v); [|rewrite andb_false_r; reflexivity].
  rewrite errors_handleInputChange_from.
  change (field_name (SetText f v)) with (text_field_name f).
  rewrite andb_true_r.
  destruct (decide (text_field_name f = k)) as [<-|Hne].
  - rewrite bool_decide_eq_true_2 by reflexivity. simpl.
    destruct (truthy_opt (errors closure !! text_field_name f));
      [apply lookup_insert_eq | reflexivity].
  - rewrite bool_decide_eq_false_2 by exact Hne. simpl.
    destruct (truthy_opt (errors closure !! text_field_name f));
      [apply lookup_insert_ne; exact Hne | reflexivity].
Qed.

Lemma text_of_populate_keys closure record keys cur g :
  text_of g (formData (populate_keys closure record keys cur))
  = if bool_decide (g ∈ keys)
    then populated record g (text_of g (formData cur))
    else text_of g (formData cur).
Proof.
  revert cur. induction keys as [|f keys IH]; intros cur.
  - reflexivity.
  - unfold populate_keys in *. simpl foldl. rewrite IH.
    rewrite text_of_populate_field.
    destruct (decide (g = f)) as [->|Hne].
    + rewrite (bool_decide_eq_true_2 (f ∈ f :: keys)) by left.
      destruct (bool_decide (f ∈ keys));
        [apply populated_idem | reflexivity].
    + destruct (bool_decide (g ∈ keys)) eqn:Hin.
      * apply bool_decide_eq_true in Hin.
        rewrite bool_decide_eq_true_2 by (right; exact Hin). reflexivity.
      * apply bool_decide_eq_false in Hin.
        rewrite bool_decide_eq_false_2; [reflexivity|].
        intros H. apply elem_of_cons in H as [H|H]; tauto.
Qed.

Lemma frame_populate_keys closure record keys cur :
  let st' := populate_keys closure record keys cur in
  eval_metrices (formData st') = eval_metrices (formData cur)
  ∧ model (formData st') = model (formData cur)
  ∧ uploaded_file (formData st') = uploaded_file (formData cur)
  ∧ uploadedFile st' = uploadedFile cur
  ∧ isUploading st' = isUploading cur
  ∧ csvRecords st' = csvRecords cur
  ∧ selectedRecordIndex st' = selectedRecordIndex cur.
Proof.
  revert cur. induction keys as [|f keys IH]; intros cur.
  - repeat split.
  - unfold populate_keys in *. simpl foldl.
    specialize (IH (populate_field closure record cur f)). simpl in IH.
    destruct IH as (I1 & I2 & I3 & I4 & I5 & I6 & I7).
    destruct (frame_populate_field closure record cur f)
      as (F1 & F2 & F3 & F4 & F5 & F6 & F7).
    simpl. split_and!; congruence.
Qed.

Lemma errors_populate_keys closure record keys cur k :
  errors (populate_keys closure record keys cur) !! k
  = if visits record keys k && truthy_opt (errors closure !! k)
    then Some [] else errors cur !! k.
Proof.
  revert cur. induction keys as [|f keys IH]; intros cur.
  - reflexivity.
  - unfold populate_keys in *. simpl foldl. rewrite IH.
    rewrite errors_populate_field. unfold visits. simpl existsb.
    destruct (existsb _ keys); simpl.
    + rewrite orb_true_r. simpl.
      destruct (truthy_opt (errors closure !! k)); [reflexivity|].
      rewrite andb_false_r. reflexivity.
    + rewrite orb_false_r. reflexivity.
Qed.

Lemma visits_complete record keys k :
  (∀ f, touched record f = true → f ∈ keys) →
  visits record keys k = visits record text_fields k.
Proof.
  intros Hall. unfold visits.
  apply eq_true_iff_eq. rewrite !existsb_exists. split.
  - intros (f & _ & Hf). exists f. split; [|exact Hf].
    apply list_elem_of_In, text_fields_complete.
  - intros (f & _ & Hf). exists f. split; [|exact Hf].
    apply list_elem_of_In, Hall.
    apply andb_true_iff in Hf. tauto.
Qed.

Lemma formstate_ext (a b : FormState) :
  formData a = formData b → errors a = errors b →
  uploadedFile a = uploadedFile b → isUploading a = isUploading b →
  csvRecords a = csvRecords b →
  selectedRecordIndex a = selectedRecordIndex b → a = b.
Proof. destruct a, b. simpl. intros. subst. reflexivity. Qed.

(** The order in which the keys of a record are visited does not matter,
    nor does visiting a field the record says nothing about: any list of
    keys that holds the fields of the record gives the state that the
    fixed list of all fields gives. *)
Lemma populate_keys_any_order closure record keys cur :
  (∀ f, touched record f = true → f ∈ keys) →
  populate_keys closure record keys cur
  = populate_keys closure record text_fields cur.
Proof.
  intros Hall.
  destruct (frame_populate_keys closure record keys cur)
    as (A1 & A2 & A3 & A4 & A5 & A6 & A7).
  destruct (frame_populate_keys closure record text_fields cur)
    as (B1 & B2 & B3 & B4 & B5 & B6 & B7).
  apply formstate_ext; try congruence.
  - apply request_ext; try congruence.
    intros g. rewrite !text_of_populate_keys.
    rewrite (bool_decide_eq_true_2 (g ∈ text_fields))
      by apply text_fields_complete.
    destruct (bool_decide (g ∈ keys)) eqn:Hin; [reflexivity|].
    apply bool_decide_eq_false in Hin.
    symmetry. apply populated_untouched.
    destruct (touched record g) eqn:Ht; [|reflexivity].
    exfalso. apply Hin, Hall, Ht.
  - apply map_eq. intros k. rewrite !errors_populate_keys.
    rewrite (visits_complete record keys k Hall). reflexivity.
Qed.

End Populate.

Section Records.
Import EvaluationForm FileProcessing CsvPlain.

Lemma truthy_lit_default : truthy default_query = true.
Proof. reflexivity. Qed.

Lemma text_of_populateFormWithRecord closure record cur g :
  text_of g (formData (populateFormWithRecord closure record cur))
  = if decide (g = UserQuery)
    then (if touched record UserQuery
          then populated record UserQuery (user_query (formData cur))
          else default_query)
    else populated record g (text_of g (formData cur)).
Proof.
  unfold populateFormWithRecord.
  change (truthy_opt (record !! "user_query")) with (touched record UserQuery).
  destruct (touched record UserQuery) eqn:Ht.
  - rewrite text_of_populate_keys.
    rewrite bool_decide_eq_true_2 by apply text_fields_complete.
    destruct (decide (g = UserQuery)) as [->|]; reflexivity.
  - rewrite formData_handleInputChange_from.
    destruct (decide (g = UserQuery)) as [->|Hne].
    + apply text_of_set_same.
    + rewrite text_of_set_other by congruence.
      rewrite text_of_populate_keys.
      rewrite bool_decide_eq_true_2 by apply text_fields_complete.
      reflexivity.
Qed.

Lemma frame_populateFormWithRecord closure record cur :
  let st' := populateFormWithRecord closure record cur in
  eval_metrices (formData st') = eval_metrices (formData cur)
  ∧ model (formData st') = model (formData cur)
  ∧ uploaded_file (formData st') = uploaded_file (formData cur)
  ∧ uploadedFile st' = uploadedFile cur
  ∧ isUploading st' = isUploading cur
  ∧ csvRecords st' = csvRecords cur
  ∧ selectedRecordIndex st' = selectedRecordIndex cur.
Proof.
  unfold populateFormWithRecord.
  destruct (frame_populate_keys closure record text_fields cur)
    as (F1 & F2 & F3 & F4 & F5 & F6 & F7).
  destruct (truthy_opt (record !! "user_query")).
  - split_and!; assumption.
  - cbv zeta. rewrite formData_handleInputChange_from.
    destruct (rest_handleInputChange_from closure
                (SetText UserQuery default_query)
                (populate_keys closure record text_fields cur))
      as (H1 & H2 & H3 & H4).
    rewrite eval_metrices_set_field, model_set_field,
      uploaded_file_set_field.
    split_and!; congruence.
Qed.

(** X8: with records whose keys are form fields, as the component
    stores them, choosing a record stores its index and copies each
    non-empty value of the record into the field of the same name; a field the record says nothing about keeps the text it had
    (it is not cleared), except the query, which gets a default text; the
    query is never left empty. An index past the records only stores the
    index. *)
Theorem record_selection_fills_form :
  ∀ (index : nat) (st : FormState),
    Forall field_keys (csvRecords st) →
    let st' := handleRecordSelection index st in
    selectedRecordIndex st' = index
    ∧ csvRecords st' = csvRecords st
    ∧ uploadedFile st' = uploadedFile st
    ∧ eval_metrices (formData st') = eval_metrices (formData st)
    ∧ match csvRecords st !! index with
      | None => formData st' = formData st ∧ errors st' = errors st
      | Some record =>
          user_query (formData st') ≠ []
          ∧ (∀ g v, record !! text_field_name g = Some v → v ≠ [] →
                    text_of g (formData st') = v)
          ∧ (∀ g, g ≠ UserQuery → touched record g = false →
                  text_of g (formData st') = text_of g (formData st))
          ∧ (touched record UserQuery = false →
             user_query (formData st') = default_query)
      end.
Proof.
  intros index st _ st'. unfold st', handleRecordSelection.
  destruct (csvRecords st !! index) as [record|] eqn:Hrec.
  - destruct (frame_populateFormWithRecord st record
                (with_selectedRecordIndex index st))
      as (F1 & F2 & F3 & F4 & F5 & F6 & F7).
    split_and!; try assumption.
    + change (user_query ?d) with (text_of UserQuery d).
      rewrite text_of_populateFormWithRecord.
      rewrite decide_True by reflexivity.
      unfold touched, populated, truthy_opt.
      change (text_field_name UserQuery) with "user_query".
      destruct (record !! "user_query") as [v|]; [|discriminate].
      destruct v; simpl; discriminate.
    + intros g v Hv Hne. rewrite text_of_populateFormWithRecord.
      assert (Ht : truthy v = true)
        by (destruct v; [contradiction|reflexivity]).
      destruct (decide (g = UserQuery)) as [->|_];
        unfold touched, truthy_opt, populated, jsstring in *;
        rewrite ?Hv, ?Ht; reflexivity.
    + intros g Hg Ht. rewrite text_of_populateFormWithRecord.
      rewrite decide_False by exact Hg.
      apply populated_untouched, Ht.
    + intros Ht. change (user_query ?d) with (text_of UserQuery d).
      rewrite text_of_populateFormWithRecord.
      rewrite decide_True by reflexivity. rewrite Ht. reflexivity.
  - repeat split.
Qed.

Lemma fieldMapping_own (header : jsstring) (f : TextField) :
  fieldMapping header = Own f <-> header = lit (text_field_name f).
Proof.
  split.
  - unfold fieldMapping, text_fields. simpl list_find.
    repeat (case_decide; [simpl; intros [= <-]; congruence|]).
    simpl. destruct (includes _ _); discriminate.
  - intros ->. destruct f; vm_compute; reflexivity.
Qed.

Lemma foldl_add_cell_None row cols :
  foldl (add_cell row) None cols = None.
Proof. induction cols as [|c cols IH]; [reflexivity | exact IH]. Qed.

Lemma add_cell_Some row acc column record :
  add_cell row (Some acc) column = Some record →
  record = acc
  ∨ ∃ f cell, fieldMapping column.2 = Own f ∧ row !! column.1 = Some cell
              ∧ truthy cell = true
              ∧ record = <[text_field_name f := cell]> acc.
Proof.
  unfold add_cell.
  destruct (fieldMapping column.2) as [f| |] eqn:Hm;
    destruct (row !! column.1) as [cell|] eqn:Hc;
    try (intros [= <-]; left; reflexivity).
  - destruct (truthy cell) eqn:Ht; intros [= <-]; [|left; reflexivity].
    right. exists f, cell. repeat split; assumption.
  - destruct (truthy cell); [discriminate|]. intros [= <-]. left. reflexivity.
Qed.

Lemma foldl_add_cell_values row cols acc record k v :
  foldl (add_cell row) (Some acc) cols = Some record →
  record !! k = Some v →
  acc !! k = Some v
  ∨ ∃ i f, (i, lit (text_field_name f)) ∈ cols ∧ k = text_field_name f
           ∧ row !! i = Some v ∧ v ≠ [].
Proof.
  revert acc. induction cols as [|[i h] cols IH]; intros acc Hfold Hk.
  - simpl in Hfold. injection Hfold as <-. left. exact Hk.
  - cbn [foldl] in Hfold.
    destruct (add_cell row (Some acc) (i, h)) as [acc'|] eqn:Hadd;
      [|rewrite foldl_add_cell_None in Hfold; discriminate].
    destruct (IH acc' Hfold Hk) as [Hacc'|(j & f & Hin & Hkf & Hr & Hv)].
    + apply add_cell_Some in Hadd
        as [->|(f & cell & Hm & Hc & Ht & ->)]; [left; exact Hacc'|].
      simpl in Hm, Hc. apply fieldMapping_own in Hm. subst h.
      destruct (decide (text_field_name f = k)) as [<-|Hne].
      * rewrite lookup_insert_eq in Hacc'. injection Hacc' as <-.
        right. exists i, f. split; [left|].
        repeat split; [exact Hc | destruct cell; discriminate].
      * rewrite lookup_insert_ne in Hacc' by exact Hne. left. exact Hacc'.
    + right. exists j, f. split; [right; exact Hin|].
      repeat split; assumption.
Qed.

Lemma foldl_add_cell_present row cols acc record i f cell :
  foldl (add_cell row) (Some acc) cols = Some record →
  (i, lit (text_field_name f)) ∈ cols → row !! i = Some cell →
  cell ≠ [] →
  is_Some (record !! text_field_name f).
Proof.
  intros Hfold Hin Hrow Hcell.
  assert (Hmono : ∀ cols acc record,
    foldl (add_cell row) (Some acc) cols = Some record →
    is_Some (acc !! text_field_name f) →
    is_Some (record !! text_field_name f)).
  { clear. induction cols as [|c cols IH]; intros acc record Hfold Hs.
    - simpl in Hfold. injection Hfold as <-. exact Hs.
    - cbn [foldl] in Hfold.
      destruct (add_cell row (Some acc) c) as [acc'|] eqn:Hadd;
        [|rewrite foldl_add_cell_None in Hfold; discriminate].
      apply (IH acc' record Hfold).
      apply add_cell_Some in Hadd as [->|(g & cell & _ & _ & _ & ->)];
        [exact Hs|].
      destruct (decide (text_field_name g = text_field_name f)) as [->|Hne].
      + rewrite lookup_insert_eq. eauto.
      + rewrite lookup_insert_ne by exact Hne. exact Hs. }
  revert acc Hfold. induction cols as [|c cols IH]; intros acc Hfold.
  - inversion Hin.
  - cbn [foldl] in Hfold.
    destruct (add_cell row (Some acc) c) as [acc'|] eqn:Hadd;
      [|rewrite foldl_add_cell_None in Hfold; discriminate].
    apply elem_of_cons in Hin as [<-|Hin].
    + apply (Hmono cols acc' record Hfold).
      unfold add_cell in Hadd. cbn [fst snd] in Hadd.
      rewrite (proj2 (fieldMapping_own _ f) eq_refl) in Hadd.
      unfold jsstring in *. rewrite Hrow in Hadd.
      assert (Ht : truthy cell = true)
        by (destruct cell; [contradiction|reflexivity]).
      rewrite Ht in Hadd. injection Hadd as <-.
      rewrite lookup_insert_eq. eauto.
    + apply (IH Hin acc' Hfold).
Qed.

Lemma elem_of_columns (headers : list jsstring) i h :
  (i, h) ∈ imap pair headers <-> headers !! i = Some h.
Proof.
  rewrite elem_of_lookup_imap. split.
  - intros (j & y & [= -> ->] & Hl). exact Hl.
  - intros Hl. exists i, h. split; [reflexivity | exact Hl].
Qed.

(** X9: in the record made of a data row, every entry is a non-empty
    cell, stored under the name of a form field, and the cell stands in a
    column whose header is that name; and every form field that heads a
    column with a non-empty cell has an entry. Cells under other headers
    and empty cells leave no trace. *)
Theorem record_holds_named_cells :
  ∀ (headers row : list jsstring) (record : gmap string jsstring),
    record_of_row headers row = Some record →
    (∀ k v, record !! k = Some v →
       ∃ f i, k = text_field_name f
              ∧ headers !! i = Some (lit (text_field_name f))
              ∧ row !! i = Some v ∧ v ≠ [])
    ∧ (∀ f i cell, headers !! i = Some (lit (text_field_name f)) →
         row !! i = Some cell → cell ≠ [] →
         is_Some (record !! text_field_name f)).
Proof.
  intros headers row record Hrec. unfold record_of_row in Hrec. split.
  - intros k v Hk.
    destruct (foldl_add_cell_values row _ ∅ record k v Hrec Hk)
      as [Hempty|(i & f & Hin & Hkf & Hr & Hv)].
    + rewrite lookup_empty in Hempty. discriminate.
    + exists f, i. apply elem_of_columns in Hin. repeat split; assumption.
  - intros f i cell Hh Hr Hc.
    apply (foldl_add_cell_present row _ ∅ record i f cell Hrec); try assumption.
    apply elem_of_columns. exact Hh.
Qed.

End Records.

(** ** Reading an uploaded file *)

Section Processing.
Import EvaluationForm FileProcessing CsvPlain.

Lemma split_on_length sep (s : list N) :
  length (split_on sep s) = S (length (filter (λ c, c = sep) s)).
Proof.
  induction s as [|c s IH]; [reflexivity|]. simpl split_on.
  destruct (N.eqb_spec c sep) as [->|Hne].
  - rewrite filter_cons_True by reflexivity. simpl. rewrite IH. reflexivity.
  - rewrite filter_cons_False by exact Hne.
    destruct (split_on sep s) as [|piece pieces]; simpl in *; [lia|].
    exact IH.
Qed.

Lemma split_on_absent sep (s : list N) : sep ∉ s → split_on sep s = [s].
Proof.
  induction s as [|c s IH]; intros Hs; [reflexivity|].
  apply not_elem_of_cons in Hs as [Hc Hs]. simpl.
  rewrite (proj2 (N.eqb_neq c sep)) by congruence.
  rewrite (IH Hs). reflexivity.
Qed.

Lemma filter_eq_nil_absent (x : N) (s : list N) :
  x ∉ s → filter (λ c, c = x) s = [].
Proof.
  induction s as [|c s IH]; intros Hs; [reflexivity|].
  apply not_elem_of_cons in Hs as [Hc Hs].
  rewrite filter_cons_False by congruence. apply IH, Hs.
Qed.

Lemma filter_eq_present (x : N) (s : list N) :
  x ∈ s → 1 <= length (filter (λ c, c = x) s).
Proof.
  induction s as [|c s IH]; intros Hs; [inversion Hs|].
  destruct (decide (c = x)) as [->|Hne].
  - rewrite filter_cons_True by reflexivity. simpl. lia.
  - rewrite filter_cons_False by exact Hne. apply IH.
    apply elem_of_cons in Hs as [Heq|Hs]; [congruence | exact Hs].
Qed.

Lemma text_of_content_to_response closure content suggestion cur g :
  text_of g (formData (content_to_response closure content suggestion cur))
  = match g with
    | AiResponse => content
    | UserQuery =>
        if truthy (trim (user_query (formData closure)))
        then user_query (formData cur) else suggestion
    | _ => text_of g (formData cur)
    end.
Proof.
  unfold content_to_response.
  destruct (truthy (trim (user_query (formData closure)))); simpl negb;
    cbv iota; rewrite ?formData_handleInputChange_from;
    destruct (formData cur), g; reflexivity.
Qed.

Lemma frame_content_to_response closure content suggestion cur :
  let st' := content_to_response closure content suggestion cur in
  eval_metrices (formData st') = eval_metrices (formData cur)
  ∧ uploadedFile st' = uploadedFile cur
  ∧ isUploading st' = isUploading cur
  ∧ csvRecords st' = csvRecords cur
  ∧ selectedRecordIndex st' = selectedRecordIndex cur
  ∧ (∀ k, k ≠ "ai_response" → k ≠ "user_query" →
          errors st' !! k = errors cur !! k).
Proof.
  unfold content_to_response.
  destruct (truthy (trim (user_query (formData closure)))); simpl negb;
    cbv iota zeta.
  - rewrite formData_handleInputChange_from, errors_handleInputChange_from.
    destruct (rest_handleInputChange_from closure
                (SetText AiResponse content) cur) as (H1 & H2 & H3 & H4).
    rewrite eval_metrices_set_field.
    split_and!; try assumption; try reflexivity.
    intros k Ha Hq. destruct (truthy_opt _); [|reflexivity].
    apply lookup_insert_ne. simpl. congruence.
  - set (cur1 := handleInputChange_from closure
                   (SetText AiResponse content) cur).
    rewrite formData_handleInputChange_from, errors_handleInputChange_from.
    destruct (rest_handleInputChange_from closure
                (SetText UserQuery suggestion) cur1) as (G1 & G2 & G3 & G4).
    destruct (rest_handleInputChange_from closure
                (SetText AiResponse content) cur) as (H1 & H2 & H3 & H4).
    fold cur1 in H1, H2, H3, H4.
    rewrite eval_metrices_set_field. unfold cur1 at 1.
    rewrite formData_handleInputChange_from, eval_metrices_set_field.
    split_and!; try congruence.
    intros k Ha Hq.
    assert (Hcur1 : errors cur1 !! k = errors cur !! k).
    { unfold cur1. rewrite errors_handleInputChange_from.
      destruct (truthy_opt _); [|reflexivity].
      apply lookup_insert_ne. simpl. congruence. }
    destruct (truthy_opt _); [|exact Hcur1].
    rewrite lookup_insert_ne by (simpl; congruence). exact Hcur1.
Qed.

(** X10: a CSV file without a second line (its content, trimmed, holds
    no line break; this includes the empty file) is no error: the whole
    content, untrimmed, becomes the AI response, a query is suggested
    when the form had none, and no record is stored. *)
Theorem csv_without_rows_becomes_response :
  ∀ (closure cur : FormState) (content : jsstring),
    newline ∉ trim content →
    ∃ st' : FormState,
      parseCSVContent closure content cur = Some st'
      ∧ ai_response (formData st') = content
      ∧ user_query (formData st')
        = (if truthy (trim (user_query (formData closure)))
           then user_query (formData cur) else uploaded_file_query)
      ∧ (∀ g, g ≠ UserQuery → g ≠ AiResponse →
              text_of g (formData st') = text_of g (formData cur))
      ∧ eval_metrices (formData st') = eval_metrices (formData cur)
      ∧ csvRecords st' = csvRecords cur
      ∧ selectedRecordIndex st' = selectedRecordIndex cur.
Proof.
  intros closure cur content Hnl. unfold parseCSVContent.
  rewrite (split_on_absent newline (trim content) Hnl).
  eexists. split; [reflexivity|].
  destruct (frame_content_to_response closure content uploaded_file_query cur)
    as (F1 & F2 & F3 & F4 & F5 & F6).
  split_and!; try assumption.
  - change (ai_response ?d) with (text_of AiResponse d).
    rewrite text_of_content_to_response. reflexivity.
  - change (user_query (formData ?s)) with (text_of UserQuery (formData s))
      at 1.
    rewrite text_of_content_to_response. reflexivity.
  - intros g Hq Ha. rewrite text_of_content_to_response.
    destruct g; try reflexivity; contradiction.
Qed.

Lemma record_values_trimmed headers (line : jsstring) record k v :
  record_of_row headers (parseCSVRow line) = Some record →
  record !! k = Some v →
  (∃ f, k = text_field_name f) ∧ v ≠ [] ∧ trim v = v.
Proof.
  intros Hrec Hk. unfold record_of_row in Hrec.
  destruct (foldl_add_cell_values _ _ ∅ record k v Hrec Hk)
    as [Hempty|(i & f & _ & Hkf & Hr & Hv)].
  - rewrite lookup_empty in Hempty. discriminate.
  - split; [exists f; exact Hkf|]. split; [exact Hv|].
    apply trim_fixed.
    pose proof (parseCSVRow_loop_trimmed line 0 [] false []
                  (Forall_nil_2 _)) as Ht.
    fold (parseCSVRow line) in Ht.
    rewrite Forall_lookup in Ht. apply (Ht i v Hr).
Qed.

(** A header that names no member inherited from [Object.prototype]
    keeps the record inside the model. *)
Lemma fieldMapping_not_inherited (header : jsstring) :
  header ∉ object_prototype_names → fieldMapping header ≠ Inherited.
Proof.
  intros Hout. unfold fieldMapping.
  destruct (list_find _ text_fields) as [[i f]|]; [discriminate|].
  unfold includes. rewrite bool_decide_eq_false_2 by exact Hout.
  discriminate.
Qed.

Lemma foldl_add_cell_is_Some row cols acc :
  Forall (λ column : nat * jsstring, column.2 ∉ object_prototype_names) cols →
  is_Some acc → is_Some (foldl (add_cell row) acc cols).
Proof.
  revert acc. induction cols as [|column cols IH]; intros acc Hcols Hacc;
    [exact Hacc|].
  apply Forall_cons in Hcols as [Hcol Hcols]. cbn [foldl].
  apply IH; [exact Hcols|]. destruct Hacc as [record ->].
  unfold add_cell.
  pose proof (fieldMapping_not_inherited _ Hcol) as Hm.
  destruct (fieldMapping column.2) as [f| |]; [|contradiction|].
  - destruct (row !! column.1) as [cell|]; [|eexists; reflexivity].
    destruct (truthy cell); eexists; reflexivity.
  - destruct (row !! column.1); eexists; reflexivity.
Qed.

Lemma record_of_row_is_Some headers row :
  Forall (λ header, header ∉ object_prototype_names) headers →
  is_Some (record_of_row headers row).
Proof.
  intros Hh. unfold record_of_row.
  apply foldl_add_cell_is_Some; [|eexists; reflexivity].
  apply Forall_forall. intros [i header] Hin.
  apply elem_of_lookup_imap in Hin as (j & h & [= -> ->] & Hj).
  rewrite Forall_forall in Hh. apply Hh.
  apply list_elem_of_lookup. exists j. exact Hj.
Qed.

(** X11: when a CSV file has a header and further lines, and the
    content is inside the model (as it is whenever no header names a
    member inherited from [Object.prototype]): every line after the
    header becomes one record, empty lines included; the first record is
    selected and each of its values is put into the field of its name;
    the query of the form is then not empty; and every value of every
    record is a non-empty, trimmed cell stored under the name of a form
    field. *)
Theorem csv_lines_become_records :
  ∀ (closure cur : FormState) (content : jsstring),
    newline ∈ trim content →
    (Forall (λ header, header ∉ object_prototype_names)
            (parseCSVRow (hd [] (split_on newline (trim content)))) →
     is_Some (parseCSVContent closure content cur))
    ∧ (∀ st' : FormState,
         parseCSVContent closure content cur = Some st' →
         length (csvRecords st')
         = length (filter (λ c, c = newline) (trim content))
         ∧ selectedRecordIndex st' = 0
         ∧ user_query (formData st') ≠ []
         ∧ eval_metrices (formData st') = eval_metrices (formData cur)
         ∧ Forall (λ record : gmap string jsstring,
                     ∀ k v, record !! k = Some v →
                            (∃ f, k = text_field_name f)
                            ∧ v ≠ [] ∧ trim v = v)
                  (csvRecords st')
         ∧ (∀ (record : gmap string jsstring) g v,
              csvRecords st' !! 0 = Some record →
              record !! text_field_name g = Some v →
              text_of g (formData st') = v)).
Proof.
  intros closure cur content Hnl.
  pose proof (split_on_length newline (trim content)) as Hlen.
  pose proof (filter_eq_present newline (trim content) Hnl) as Hcount.
  split.
  { intros Hh. unfold parseCSVContent.
    destruct (split_on newline (trim content)) as [|header [|line rest]];
      simpl in Hlen; try lia.
    simpl in Hh.
    assert (Hrecs : is_Some (records_of (parseCSVRow header)
                               (map parseCSVRow (line :: rest)))).
    { unfold records_of. apply mapM_is_Some. apply Forall_forall.
      intros row _. apply record_of_row_is_Some. exact Hh. }
    destruct Hrecs as [records ->].
    destruct records; eexists; reflexivity. }
  intros st' Hparse. unfold parseCSVContent in Hparse.
  destruct (split_on newline (trim content)) as [|header [|line rest]];
    simpl in Hlen; try lia.
  destruct (records_of (parseCSVRow header) (map parseCSVRow (line :: rest)))
    as [records|] eqn:Hrecs; [|discriminate].
  unfold records_of in Hrecs.
  pose proof (length_mapM _ _ _ Hrecs) as Hl. rewrite length_map in Hl.
  simpl in Hl.
  apply mapM_Some in Hrecs.
  assert (Hwf : Forall (λ record : gmap string jsstring,
                ∀ k v, record !! k = Some v →
                       (∃ f, k = text_field_name f) ∧ v ≠ [] ∧ trim v = v)
             records).
  { apply Forall_forall. intros record Hin.
    apply list_elem_of_lookup in Hin as [j Hj].
    destruct (Forall2_lookup_r _ _ _ _ _ Hrecs Hj) as (row & Hrow & Hrec).
    apply list_lookup_fmap_Some in Hrow as (l & -> & _).
    intros k v Hk. apply (record_values_trimmed _ _ _ _ _ Hrec Hk). }
  destruct records as [|record records]; [simpl in Hl; lia|].
  injection Hparse as <-.
  destruct (frame_populateFormWithRecord closure record
              (with_selectedRecordIndex 0
                 (with_csvRecords (record :: records) cur)))
    as (F1 & F2 & F3 & F4 & F5 & F6 & F7).
  rewrite F6, F7, F1. simpl. split_and!; try reflexivity.
  - simpl in Hl. unfold jsstring in *. lia.
  - change (user_query ?d) with (text_of UserQuery d).
    rewrite text_of_populateFormWithRecord.
    rewrite decide_True by reflexivity.
    unfold touched, populated, truthy_opt.
    change (text_field_name UserQuery) with "user_query".
    destruct (record !! "user_query") as [v|]; [|discriminate].
    destruct v; simpl; discriminate.
  - exact Hwf.
  - intros record0 g v [= <-] Hv.
    apply Forall_cons in Hwf as [Hrec _].
    destruct (Hrec _ _ Hv) as (_ & Hne & _).
    assert (Ht : truthy v = true)
      by (destruct v; [contradiction|reflexivity]).
    rewrite text_of_populateFormWithRecord.
    destruct (decide (g = UserQuery)) as [->|_];
      unfold touched, truthy_opt, populated, jsstring in *;
      rewrite ?Hv, ?Ht; reflexivity.
Qed.

Lemma handleFileUpload_accepted (f : File.t) (st : FormState) :
  File.type f ∈ allowedTypes → (File.size f <= maxSize)%N →
  handleFileUpload (Some f) st
  = (mkFormState (formData st) (<["file" := []]> (errors st)) (Some f) true
                 (csvRecords st) (selectedRecordIndex st), Processing).
Proof.
  intros Ht Hs. unfold handleFileUpload, includes.
  rewrite bool_decide_eq_true_2 by exact Ht. simpl.
  rewrite (proj2 (N.ltb_ge maxSize (File.size f))) by exact Hs.
  reflexivity.
Qed.

Lemma pdf_allowed : lit "application/pdf" ∈ allowedTypes.
Proof. unfold allowedTypes. set_solver. Qed.

Lemma extractFileContent_pdf (f : File.t) read :
  File.type f = lit "application/pdf" → extractFileContent f read = None.
Proof. intros H. unfold extractFileContent. rewrite H. reflexivity. Qed.

Lemma extractFileContent_unread (f : File.t) :
  extractFileContent f None = None.
Proof.
  unfold extractFileContent. destruct (_ || _); [reflexivity|].
  destruct (bool_decide _); reflexivity.
Qed.

(** X12: a PDF of allowed size passes the validation but can never be
    read, and so can no file whose reading fails: the upload ends with
    the processing error shown, no uploaded file kept, the busy flag
    down, and the form, the records and the other errors untouched. *)
Theorem unreadable_upload_is_dropped :
  ∀ (f : File.t) (read : option jsstring) (st : FormState),
    (File.size f <= maxSize)%N →
    File.type f = lit "application/pdf"
    ∨ (File.type f ∈ allowedTypes ∧ read = None) →
    ∃ st' : FormState,
      upload (Some f) read st = Some st'
      ∧ errors st' !! "file" = Some processing_error
      ∧ uploadedFile st' = None
      ∧ isUploading st' = false
      ∧ formData st' = formData st
      ∧ csvRecords st' = csvRecords st
      ∧ selectedRecordIndex st' = selectedRecordIndex st
      ∧ (∀ k, k ≠ "file" → errors st' !! k = errors st !! k).
Proof.
  intros f read st Hs Hcase.
  assert (Ht : File.type f ∈ allowedTypes).
  { destruct Hcase as [->|[H _]]; [apply pdf_allowed | exact H]. }
  assert (Hx : extractFileContent f read = None).
  { destruct Hcase as [Hpdf|[_ ->]];
      [apply extractFileContent_pdf, Hpdf | apply extractFileContent_unread]. }
  unfold upload. rewrite (handleFileUpload_accepted f st Ht Hs).
  unfold process_file. rewrite Hx.
  eexists. split; [reflexivity|]. simpl.
  split_and!; try reflexivity.
  - apply lookup_insert_eq.
  - intros k Hk. rewrite !lookup_insert_ne by congruence. reflexivity.
Qed.

(** X13: a plain-text or JSON file of allowed size whose name does not
    end in [.csv], once read, is kept as the uploaded file; its content
    becomes the AI response as it is; the query is left alone unless it
    was blank, in which case it names the file; chunks, metrics and
    records stay; the file error is blank and the busy flag is down. *)
Theorem text_upload_fills_response :
  ∀ (f : File.t) (content : jsstring) (st : FormState),
    (File.size f <= maxSize)%N →
    File.type f = lit "text/plain" ∨ File.type f = lit "application/json" →
    endsWith (File.name f) (lit ".csv") = false →
    ∃ st' : FormState,
      upload (Some f) (Some content) st = Some st'
      ∧ ai_response (formData st') = content
      ∧ user_query (formData st')
        = (if truthy (trim (user_query (formData st)))
           then user_query (formData st) else content_from f)
      ∧ (∀ g, g ≠ UserQuery → g ≠ AiResponse →
              text_of g (formData st') = text_of g (formData st))
      ∧ eval_metrices (formData st') = eval_metrices (formData st)
      ∧ uploadedFile st' = Some f
      ∧ isUploading st' = false
      ∧ truthy_opt (errors st' !! "file") = false
      ∧ csvRecords st' = csvRecords st
      ∧ selectedRecordIndex st' = selectedRecordIndex st.
Proof.
  intros f content st Hs Htype Hname.
  assert (Ht : File.type f ∈ allowedTypes).
  { unfold allowedTypes. destruct Htype as [-> | ->]; set_solver. }
  assert (Hx : extractFileContent f (Some content) = Some content).
  { unfold extractFileContent. destruct Htype as [-> | ->]; reflexivity. }
  assert (Hcsv : isCSV f = false).
  { unfold isCSV. rewrite Hname.
    destruct Htype as [-> | ->]; reflexivity. }
  unfold upload. rewrite (handleFileUpload_accepted f st Ht Hs).
  unfold process_file. rewrite Hx, Hcsv.
  eexists. split; [reflexivity|].
  set (st1 := mkFormState _ _ _ _ _ _).
  destruct (frame_content_to_response st content (content_from f) st1)
    as (F1 & F2 & F3 & F4 & F5 & F6).
  simpl. split_and!.
  - change (ai_response ?d) with (text_of AiResponse d).
    rewrite text_of_content_to_response. reflexivity.
  - change (user_query (formData ?s)) with (text_of UserQuery (formData s))
      at 1.
    rewrite text_of_content_to_response. reflexivity.
  - intros g Hq Ha. rewrite text_of_content_to_response.
    destruct g; try reflexivity; contradiction.
  - exact F1.
  - exact F2.
  - reflexivity.
  - rewrite F6 by discriminate. unfold st1. simpl.
    rewrite lookup_insert_eq. reflexivity.
  - exact F4.
  - exact F5.
Qed.

End Processing.

Section UploadAndSubmit.
Import EvaluationForm FileProcessing.

Lemma handleSubmit_sends (st : FormState) :
  truthy (trim (user_query (formData st))) = true →
  truthy (trim (ai_response (formData st))) = true →
  eval_metrices (formData st) ≠ [] →
  (handleSubmit st).2 = Some (requestData st).
Proof.
  intros Hq Ha Hm.
  destruct (newErrors_cases (formData st)) as (Hsize & _).
  unfold handleSubmit, validateForm. rewrite Hsize, Hq, Ha.
  destruct (eval_metrices (formData st)); [contradiction|]. reflexivity.
Qed.

Lemma content_from_not_blank (f : File.t) :
  truthy (trim (content_from f)) = true.
Proof.
  apply truthy_true_iff. intros H. apply trim_nil_iff in H.
  unfold content_from in H. simpl in H.
  inversion H as [|c l Hc _]. vm_compute in Hc. discriminate.
Qed.

Lemma upload_text_state (f : File.t) content st :
  (File.size f <= maxSize)%N →
  File.type f = lit "text/plain" ∨ File.type f = lit "application/json" →
  endsWith (File.name f) (lit ".csv") = false →
  upload (Some f) (Some content) st
  = Some (with_isUploading false
            (content_to_response st content (content_from f)
               (mkFormState (formData st) (<["file" := []]> (errors st))
                            (Some f) true (csvRecords st)
                            (selectedRecordIndex st)))).
Proof.
  intros Hs Htype Hname.
  assert (Ht : File.type f ∈ allowedTypes).
  { unfold allowedTypes. destruct Htype as [-> | ->]; set_solver. }
  assert (Hx : extractFileContent f (Some content) = Some content).
  { unfold extractFileContent. destruct Htype as [-> | ->]; reflexivity. }
  assert (Hcsv : isCSV f = false).
  { unfold isCSV. rewrite Hname.
    destruct Htype as [-> | ->]; reflexivity. }
  unfold upload. rewrite (handleFileUpload_accepted f st Ht Hs).
  unfold process_file. rewrite Hx, Hcsv. reflexivity.
Qed.

(** X14: uploading a readable text or JSON file with some text in it and
    submitting right away, with a metric selected, always passes the
    validation: the request carries the content of the file as the AI
    response and again inside [uploaded_file], next to the name, type and
    size of the file, and a query that is not blank. *)
Theorem upload_then_submit_sends_file :
  ∀ (f : File.t) (content : jsstring) (st : FormState),
    (File.size f <= maxSize)%N →
    File.type f = lit "text/plain" ∨ File.type f = lit "application/json" →
    endsWith (File.name f) (lit ".csv") = false →
    trim content ≠ [] →
    eval_metrices (formData st) ≠ [] →
    ∃ (st' : FormState) (request : EvaluationRequest),
      upload (Some f) (Some content) st = Some st'
      ∧ (handleSubmit st').2 = Some request
      ∧ ai_response request = content
      ∧ uploaded_file request
        = Some {| uf_name := File.name f; uf_content := content;
                  uf_type := File.type f; uf_size := File.size f |}
      ∧ trim (user_query request) ≠ []
      ∧ eval_metrices request = eval_metrices (formData st).
Proof.
  intros f content st Hs Htype Hname Hcontent Hmetrics.
  rewrite (upload_text_state f content st Hs Htype Hname).
  set (st1 := mkFormState _ _ _ _ _ _).
  set (st2 := content_to_response st content (content_from f) st1).
  destruct (frame_content_to_response st content (content_from f) st1)
    as (F1 & F2 & _).
  fold st2 in F1, F2.
  assert (Hai : ai_response (formData st2) = content).
  { change (ai_response ?d) with (text_of AiResponse d).
    unfold st2. rewrite text_of_content_to_response. reflexivity. }
  assert (Huq : truthy (trim (user_query (formData st2))) = true).
  { change (user_query (formData st2))
      with (text_of UserQuery (formData st2)).
    unfold st2. rewrite text_of_content_to_response.
    destruct (truthy (trim (user_query (formData st)))) eqn:Hold;
      [exact Hold | apply content_from_not_blank]. }
  exists (with_isUploading false st2), (requestData (with_isUploading false st2)).
  split; [reflexivity|]. split.
  - apply handleSubmit_sends; simpl.
    + exact Huq.
    + rewrite Hai. apply truthy_true_iff, Hcontent.
    + rewrite F1. exact Hmetrics.
  - unfold requestData. simpl. rewrite F2, Hai. unfold st1. simpl.
    split_and!; try reflexivity.
    + apply truthy_true_iff, Huq.
    + exact F1.
Qed.

(** X15: removing the uploaded file forgets the file, its records and
    the file error, but takes nothing back out of the form: the texts the
    file put there stay, the other errors stay, and choosing a record
    afterwards changes no field. *)
Theorem remove_keeps_form :
  ∀ (st : FormState) (index : nat),
    let st' := removeUploadedFile st in
    uploadedFile st' = None
    ∧ csvRecords st' = []
    ∧ selectedRecordIndex st' = 0
    ∧ truthy_opt (errors st' !! "file") = false
    ∧ formData st' = formData st
    ∧ (∀ k, k ≠ "file" → errors st' !! k = errors st !! k)
    ∧ formData (handleRecordSelection index st') = formData st.
Proof.
  intros st index st'. unfold st', removeUploadedFile. simpl.
  split_and!; try reflexivity.
  - rewrite lookup_insert_eq. reflexivity.
  - intros k Hk. apply lookup_insert_ne. congruence.
Qed.

End UploadAndSubmit.

(** ** What the application shows *)

Section Views.
Import App AppView.

(** X16: in every state the application can reach, exactly one of its
    three views (form, spinner, results) is on screen, and an error that
    is set is shown, since the form it belongs to is. *)
Theorem one_view_at_a_time :
  ∀ st : AppState,
    reachable st →
    views_rendered st = 1
    ∧ (is_Some (error st) → form_visible st = true)
    ∧ error_visible st = truthy_opt (error st).
Proof.
  intros st Hr. apply reachable_exclusive in Hr. destruct Hr as [Hload Hres].
  unfold views_rendered, error_visible, form_visible, results_visible,
    spinner_visible.
  destruct st as [r l e]. simpl in *.
  destruct l.
  - destruct (Hload eq_refl) as [-> ->]. simpl.
    split_and!; try reflexivity. intros [x Hx]. discriminate.
  - destruct r as [r|].
    + rewrite (Hres (mk_is_Some _ _ eq_refl)). simpl.
      split_and!; try reflexivity. intros [x Hx]. discriminate.
    + simpl. split_and!; reflexivity.
Qed.

Lemma one_view_at_a_time_witness :
  reachable Fixtures.pending
  ∧ views_rendered Fixtures.pending = 1
  ∧ (is_Some (error Fixtures.pending) → form_visible Fixtures.pending = true)
  ∧ error_visible Fixtures.pending = truthy_opt (error Fixtures.pending).
Proof.
  assert (Hr : reachable Fixtures.pending).
  { apply (reachable_step initial_state); [apply reachable_init|].
    apply step_submit. reflexivity. }
  split; [exact Hr|]. apply (one_view_at_a_time Fixtures.pending Hr).
Defined.

End Views.

(** ** The system status panel *)

Section Status.
Import Api SystemStatus.

(** X17: whatever health checks came before, and whether or not one is
    still in flight, the panel follows the check that settled last: a
    check that fails hides the panel and shows the status as unavailable,
    while the health data of an earlier success is kept but not shown; a
    check that succeeds shows exactly the data it received, with no
    error left; and a check that starts shows the waiting notice. *)
Theorem status_follows_last_check :
  ∀ (evs : list FetchEvent) (outcome : Settled SystemHealth),
    let st := foldl fetch_step SystemStatus.initial_state evs in
    render (fetch_step st (Settle outcome))
    = match outcome with
      | Resolved h => Panel h
      | Thrown _ => Unavailable
      end
    ∧ (match outcome with
       | Resolved h =>
           health (fetch_step st (Settle outcome)) = Some h
           ∧ SystemStatus.error (fetch_step st (Settle outcome)) = None
       | Thrown _ =>
           health (fetch_step st (Settle outcome)) = health st
       end)
    ∧ render (fetch_step st Begin) = Checking
    ∧ health (fetch_step st Begin) = health st.
Proof.
  intros evs outcome st. destruct outcome as [h|err]; simpl.
  - repeat split.
  - unfold render. simpl. destruct (health st); repeat split.
Qed.

End Status.

(** ** The further properties at sample inputs *)

Section Witnesses.
Import EvaluationForm FileProcessing Fixtures.

Lemma record_holds_named_cells_witness :
  record_of_row sample_headers sample_row = Some sample_record
  ∧ (∀ k v, sample_record !! k = Some v →
       ∃ f i, k = text_field_name f
              ∧ sample_headers !! i = Some (lit (text_field_name f))
              ∧ sample_row !! i = Some v ∧ v ≠ [])
  ∧ (∀ f i cell, sample_headers !! i = Some (lit (text_field_name f)) →
       sample_row !! i = Some cell → cell ≠ [] →
       is_Some (sample_record !! text_field_name f)).
Proof.
  assert (H : record_of_row sample_headers sample_row = Some sample_record)
    by (vm_compute; reflexivity).
  split; [exact H|].
  apply (record_holds_named_cells sample_headers sample_row sample_record H).
Defined.

Lemma csv_without_rows_becomes_response_witness :
  (newline ∉ trim one_line)
  ∧ ∃ st' : FormState,
      parseCSVContent EvaluationForm.initial_state one_line
                      EvaluationForm.initial_state = Some st'
      ∧ ai_response (formData st') = one_line
      ∧ user_query (formData st')
        = (if truthy (trim (user_query
                              (formData EvaluationForm.initial_state)))
           then user_query (formData EvaluationForm.initial_state)
           else uploaded_file_query)
      ∧ (∀ g, g ≠ UserQuery → g ≠ AiResponse →
              text_of g (formData st')
              = text_of g (formData EvaluationForm.initial_state))
      ∧ eval_metrices (formData st')
        = eval_metrices (formData EvaluationForm.initial_state)
      ∧ csvRecords st' = csvRecords EvaluationForm.initial_state
      ∧ selectedRecordIndex st'
        = selectedRecordIndex EvaluationForm.initial_state.
Proof.
  assert (H : newline ∉ trim one_line).
  { apply (bool_decide_unpack (newline ∉ trim one_line)).
    vm_compute. exact I. }
  split; [exact H|].
  apply (csv_without_rows_becomes_response EvaluationForm.initial_state
           EvaluationForm.initial_state one_line H).
Defined.

Lemma csv_lines_become_records_witness :
  newline ∈ trim two_rows
  ∧ Forall (λ header, header ∉ object_prototype_names)
           (parseCSVRow (hd [] (split_on newline (trim two_rows))))
  ∧ parseCSVContent EvaluationForm.initial_state two_rows
                    EvaluationForm.initial_state = Some two_rows_loaded
  ∧ is_Some (parseCSVContent EvaluationForm.initial_state two_rows
                             EvaluationForm.initial_state)
  ∧ length (csvRecords two_rows_loaded)
    = length (filter (λ c, c = newline) (trim two_rows))
  ∧ selectedRecordIndex two_rows_loaded = 0
  ∧ user_query (formData two_rows_loaded) ≠ []
  ∧ eval_metrices (formData two_rows_loaded)
    = eval_metrices (formData EvaluationForm.initial_state)
  ∧ Forall (λ record : gmap string jsstring,
              ∀ k v, record !! k = Some v →
                     (∃ f, k = text_field_name f) ∧ v ≠ [] ∧ trim v = v)
           (csvRecords two_rows_loaded)
  ∧ (∀ (record : gmap string jsstring) g v,
       csvRecords two_rows_loaded !! 0 = Some record →
       record !! text_field_name g = Some v →
       text_of g (formData two_rows_loaded) = v).
Proof.
  assert (Hnl : newline ∈ trim two_rows).
  { apply (bool_decide_unpack (newline ∈ trim two_rows)).
    vm_compute. exact I. }
  assert (Hh : Forall (λ header, header ∉ object_prototype_names)
                 (parseCSVRow (hd [] (split_on newline (trim two_rows))))).
  { apply (bool_decide_unpack
             (Forall (λ header, header ∉ object_prototype_names)
                (parseCSVRow (hd [] (split_on newline (trim two_rows)))))).
    vm_compute. exact I. }
  assert (H : parseCSVContent EvaluationForm.initial_state two_rows
                EvaluationForm.initial_state = Some two_rows_loaded)
    by (vm_compute; reflexivity).
  destruct (csv_lines_become_records EvaluationForm.initial_state
              EvaluationForm.initial_state two_rows Hnl) as [Htotal Hrecords].
  split; [exact Hnl|]. split; [exact Hh|]. split; [exact H|].
  split; [exact (Htotal Hh)|].
  exact (Hrecords two_rows_loaded H).
Defined.

Lemma unreadable_upload_is_dropped_witness :
  (File.size paper_pdf <= maxSize)%N
  ∧ (File.type paper_pdf = lit "application/pdf"
     ∨ (File.type paper_pdf ∈ allowedTypes ∧ Some (lit "%PDF") = None))
  ∧ ∃ st' : FormState,
      upload (Some paper_pdf) (Some (lit "%PDF"))
             EvaluationForm.initial_state = Some st'
      ∧ errors st' !! "file" = Some processing_error
      ∧ uploadedFile st' = None
      ∧ isUploading st' = false
      ∧ formData st' = formData EvaluationForm.initial_state
      ∧ csvRecords st' = csvRecords EvaluationForm.initial_state
      ∧ selectedRecordIndex st'
        = selectedRecordIndex EvaluationForm.initial_state
      ∧ (∀ k, k ≠ "file" →
              errors st' !! k = errors EvaluationForm.initial_state !! k).
Proof.
  assert (Hs : (File.size paper_pdf <= maxSize)%N)
    by (vm_compute; discriminate).
  assert (Hc : File.type paper_pdf = lit "application/pdf"
               ∨ (File.type paper_pdf ∈ allowedTypes
                  ∧ Some (lit "%PDF") = None))
    by (left; reflexivity).
  split; [exact Hs|]. split; [exact Hc|].
  apply (unreadable_upload_is_dropped paper_pdf (Some (lit "%PDF"))
           EvaluationForm.initial_state Hs Hc).
Defined.

Lemma text_upload_fills_response_witness :
  (File.size notes_txt <= maxSize)%N
  ∧ (File.type notes_txt = lit "text/plain"
     ∨ File.type notes_txt = lit "application/json")
  ∧ endsWith (File.name notes_txt) (lit ".csv") = false
  ∧ ∃ st' : FormState,
      upload (Some notes_txt) (Some (lit "Paris."))
             EvaluationForm.initial_state = Some st'
      ∧ ai_response (formData st') = lit "Paris."
      ∧ user_query (formData st')
        = (if truthy (trim (user_query
                              (formData EvaluationForm.initial_state)))
           then user_query (formData EvaluationForm.initial_state)
           else content_from notes_txt)
      ∧ (∀ g, g ≠ UserQuery → g ≠ AiResponse →
              text_of g (formData st')
              = text_of g (formData EvaluationForm.initial_state))
      ∧ eval_metrices (formData st')
        = eval_metrices (formData EvaluationForm.initial_state)
      ∧ uploadedFile st' = Some notes_txt
      ∧ isUploading st' = false
      ∧ truthy_opt (errors st' !! "file") = false
      ∧ csvRecords st' = csvRecords EvaluationForm.initial_state
      ∧ selectedRecordIndex st'
        = selectedRecordIndex EvaluationForm.initial_state.
Proof.
  assert (Hs : (File.size notes_txt <= maxSize)%N)
    by (vm_compute; discriminate).
  assert (Ht : File.type notes_txt = lit "text/plain"
               ∨ File.type notes_txt = lit "application/json")
    by (left; reflexivity).
  assert (Hn : endsWith (File.name notes_txt) (lit ".csv") = false)
    by (vm_compute; reflexivity).
  split; [exact Hs|]. split; [exact Ht|]. split; [exact Hn|].
  apply (text_upload_fills_response notes_txt (lit "Paris.")
           EvaluationForm.initial_state Hs Ht Hn).
Defined.

Lemma upload_then_submit_sends_file_witness :
  (File.size notes_txt <= maxSize)%N
  ∧ (File.type notes_txt = lit "text/plain"
     ∨ File.type notes_txt = lit "application/json")
  ∧ endsWith (File.name notes_txt) (lit ".csv") = false
  ∧ trim (lit "Paris.") ≠ []
  ∧ eval_metrices (formData EvaluationForm.initial_state) ≠ []
  ∧ ∃ (st' : FormState) (request : EvaluationRequest),
      upload (Some notes_txt) (Some (lit "Paris."))
             EvaluationForm.initial_state = Some st'
      ∧ (handleSubmit st').2 = Some request
      ∧ ai_response request = lit "Paris."
      ∧ uploaded_file request
        = Some {| uf_name := File.name notes_txt;
                  uf_content := lit "Paris.";
                  uf_type := File.type notes_txt;
                  uf_size := File.size notes_txt |}
      ∧ trim (user_query request) ≠ []
      ∧ eval_metrices request
        = eval_metrices (formData EvaluationForm.initial_state).
Proof.
  assert (Hs : (File.size notes_txt <= maxSize)%N)
    by (vm_compute; discriminate).
  assert (Ht : File.type notes_txt = lit "text/plain"
               ∨ File.type notes_txt = lit "application/json")
    by (left; reflexivity).
  assert (Hn : endsWith (File.name notes_txt) (lit ".csv") = false)
    by (vm_compute; reflexivity).
  assert (Hc : trim (lit "Paris.") ≠ []) by (vm_compute; discriminate).
  assert (Hm : eval_metrices (formData EvaluationForm.initial_state) ≠ [])
    by discriminate.
  split; [exact Hs|]. split; [exact Ht|]. split; [exact Hn|].
  split; [exact Hc|]. split; [exact Hm|].
  apply (upload_then_submit_sends_file notes_txt (lit "Paris.")
           EvaluationForm.initial_state Hs Ht Hn Hc Hm).
Defined.

Lemma record_selection_fills_form_witness :
  Forall field_keys (csvRecords two_rows_loaded)
  ∧ (let st' := handleRecordSelection 1 two_rows_loaded in
     selectedRecordIndex st' = 1
     ∧ csvRecords st' = csvRecords two_rows_loaded
     ∧ uploadedFile st' = uploadedFile two_rows_loaded
     ∧ eval_metrices (formData st')
       = eval_metrices (formData two_rows_loaded)
     ∧ match csvRecords two_rows_loaded !! 1 with
       | None => formData st' = formData two_rows_loaded
                 ∧ errors st' = errors two_rows_loaded
       | Some record =>
           user_query (formData st') ≠ []
           ∧ (∀ g v, record !! text_field_name g = Some v → v ≠ [] →
                     text_of g (formData st') = v)
           ∧ (∀ g, g ≠ UserQuery → touched record g = false →
                   text_of g (formData st')
                   = text_of g (formData two_rows_loaded))
           ∧ (touched record UserQuery = false →
              user_query (formData st') = default_query)
       end).
Proof.
  assert (H : Forall field_keys (csvRecords two_rows_loaded)).
  { apply (bool_decide_unpack
             (Forall field_keys (csvRecords two_rows_loaded))).
    vm_compute. exact I. }
  split; [exact H|].
  apply (record_selection_fills_form 1 two_rows_loaded H).
Defined.

End Witnesses.

(** ** The cards of the results view *)

Section Cards.
Import ResultsDisplay.

(** X18: whatever the response holds, the metric cards appear in one
    fixed order (accuracy, hallucination, authoritativeness, usefulness),
    each key at most once; a card is shown exactly for a field of the
    response that is present, under the key of that field; and it shows,
    unchanged, the metric, badge, score, rating and reasoning of the
    evaluation found in that field. *)
Theorem cards_in_fixed_order :
  ∀ results : EvaluationResponse,
    map card_key (cards results)
    `sublist_of` ["accuracy"; "hallucination"; "authoritativeness";
                  "usefulness"]
    ∧ NoDup (map card_key (cards results))
    ∧ (∀ c, c ∈ cards results <->
         ∃ k m,
           (k, Some m) ∈ [ ("accuracy", accuracy results);
                           ("hallucination", hallucination results);
                           ("authoritativeness", authoritativeness results);
                           ("usefulness", usefulness results) ]
           ∧ card_key c = k
           ∧ card_metric c = metric m
           ∧ card_badge c = badge m
           ∧ card_score c = score m
           ∧ card_rating c = rating m
           ∧ card_reasoning c = reasoning m).
Proof.
  intros results. split_and!.
  - unfold cards, metrics, entries.
    destruct (accuracy results) as [a|], (hallucination results) as [h|],
      (authoritativeness results) as [au|], (usefulness results) as [u|];
      simpl.
    all: repeat first [ apply sublist_nil | apply sublist_skip
                      | apply sublist_cons ].
  - unfold cards, metrics, entries.
    destruct (accuracy results) as [a|], (hallucination results) as [h|],
      (authoritativeness results) as [au|], (usefulness results) as [u|];
      simpl.
    all: apply (bool_decide_unpack _); vm_compute; exact I.
  - intros c. rewrite card_shown_iff. split.
    + intros (k & m & Hin & ->). exists k, m. repeat split. exact Hin.
    + intros (k & m & Hin & Hk & Hm & Hb & Hs & Hr & Ht).
      exists k, m. split; [exact Hin|].
      destruct c; simpl in *; congruence.
Qed.

End Cards.

(** ** Worked examples: files *)

Section FileExamples.
Import EvaluationForm FileProcessing Fixtures.

(** The sample CSV file: three records, the second one empty; the first
    one fills the form, its cells trimmed. *)
Example two_rows_records :
  length (csvRecords two_rows_loaded) = 3
  ∧ csvRecords two_rows_loaded !! 1 = Some ∅
  ∧ user_query (formData two_rows_loaded) = lit "What is 2+2?"
  ∧ ai_response (formData two_rows_loaded) = lit "4".
Proof. vm_compute. repeat split. Qed.

(** Choosing the empty record sets the default query and leaves the
    answer of the first record in place. *)
Example select_empty_record :
  let st := handleRecordSelection 1 two_rows_loaded in
  user_query (formData st) = default_query
  ∧ ai_response (formData st) = lit "4"
  ∧ selectedRecordIndex st = 1.
Proof. vm_compute. repeat split. Qed.

(** A header that names no field is ignored; one that names an inherited
    property of objects leaves the model when its cell is not empty. *)
Example unknown_header_ignored :
  record_of_row [lit "question"; lit "ai_response"] [lit "Why?"; lit "So."]
  = Some {[ "ai_response" := lit "So." ]}.
Proof. vm_compute. reflexivity. Qed.

Example inherited_header_outside_model :
  record_of_row [lit "toString"] [lit "x"] = None
  ∧ record_of_row [lit "toString"] [[]] = Some ∅.
Proof. vm_compute. split; reflexivity. Qed.

Example split_on_lines :
  split_on newline (lit "a" ++ [newline] ++ [newline] ++ lit "b")
  = [lit "a"; []; lit "b"].
Proof. vm_compute. reflexivity. Qed.

Example split_on_empty : split_on newline [] = [[]].
Proof. reflexivity. Qed.

(** A CSV file is recognised by its type or by its name. *)
Example isCSV_by_name :
  isCSV (File.mk (lit "data.csv") (lit "text/plain") 10) = true
  ∧ isCSV (File.mk (lit "data.txt") (lit "text/csv") 10) = true
  ∧ isCSV notes_txt = false.
Proof. vm_compute. repeat split. Qed.

End FileExamples.

(** ** CSV files are never refused for their content *)

Section CsvUpload.
Import EvaluationForm FileProcessing Fixtures.

Lemma visits_file record keys : visits record keys "file" = false.
Proof.
  unfold visits. induction keys as [|f keys IH]; [reflexivity|].
  simpl. rewrite IH, orb_false_r.
  destruct f; reflexivity.
Qed.

Lemma file_error_populateFormWithRecord closure record cur :
  errors (populateFormWithRecord closure record cur) !! "file"
  = errors cur !! "file".
Proof.
  unfold populateFormWithRecord.
  assert (Hkeys : errors (populate_keys closure record text_fields cur)
                    !! "file" = errors cur !! "file").
  { rewrite errors_populate_keys, visits_file. reflexivity. }
  destruct (truthy_opt (record !! "user_query")); [exact Hkeys|].
  rewrite errors_handleInputChange_from.
  destruct (truthy_opt _); [|exact Hkeys].
  rewrite lookup_insert_ne by discriminate. exact Hkeys.
Qed.

Lemma parseCSVContent_keeps_file closure content cur st' :
  parseCSVContent closure content cur = Some st' →
  uploadedFile st' = uploadedFile cur
  ∧ errors st' !! "file" = errors cur !! "file"
  ∧ isUploading st' = isUploading cur.
Proof.
  unfold parseCSVContent.
  destruct (frame_content_to_response closure content uploaded_file_query cur)
    as (_ & C2 & C3 & _ & _ & C6).
  destruct (split_on newline (trim content)) as [|header [|line rest]].
  - intros [= <-]. split_and!; [exact C2 | apply C6; discriminate | exact C3].
  - intros [= <-]. split_and!; [exact C2 | apply C6; discriminate | exact C3].
  - destruct (records_of _ _) as [records|]; [|discriminate].
    destruct records as [|record records]; intros [= <-].
    + set (cur1 := with_selectedRecordIndex 0 (with_csvRecords [] cur)).
      destruct (frame_content_to_response closure content
                  uploaded_file_query cur1) as (_ & D2 & D3 & _ & _ & D6).
      split_and!; [exact D2 | apply D6; discriminate | exact D3].
    + set (cur1 := with_selectedRecordIndex 0
                     (with_csvRecords (record :: records) cur)).
      destruct (frame_populateFormWithRecord closure record cur1)
        as (_ & _ & _ & F4 & F5 & _).
      split_and!; [exact F4 | | exact F5].
      rewrite file_error_populateFormWithRecord. reflexivity.
Qed.

(** X19: once a file of type [text/csv] and allowed size has been read,
    whatever its content, the upload never ends in a file error: the file
    is kept as the uploaded file, the file error is blank and the busy
    flag is down. A content that is not proper CSV is taken in as text
    or as records without a word to the user. *)
Theorem csv_content_never_refused :
  ∀ (f : File.t) (content : jsstring) (st st' : FormState),
    File.type f = lit "text/csv" →
    (File.size f <= maxSize)%N →
    upload (Some f) (Some content) st = Some st' →
    uploadedFile st' = Some f
    ∧ truthy_opt (errors st' !! "file") = false
    ∧ isUploading st' = false
    ∧ eval_metrices (formData st') = eval_metrices (formData st).
Proof.
  intros f content st st' Htype Hs Hup.
  assert (Ht : File.type f ∈ allowedTypes).
  { rewrite Htype. unfold allowedTypes. set_solver. }
  unfold upload in Hup. rewrite (handleFileUpload_accepted f st Ht Hs) in Hup.
  unfold process_file, extractFileContent, isCSV in Hup.
  rewrite Htype in Hup. simpl in Hup.
  set (st1 := mkFormState _ _ _ _ _ _) in Hup.
  destruct (parseCSVContent st content st1) as [s|] eqn:Hparse;
    [|discriminate].
  injection Hup as <-.
  destruct (parseCSVContent_keeps_file _ _ _ _ Hparse) as (K1 & K2 & _).
  simpl. rewrite K1, K2. unfold st1. simpl. rewrite lookup_insert_eq.
  split_and!; try reflexivity.
  unfold parseCSVContent in Hparse.
  destruct (split_on newline (trim content)) as [|header [|line rest]].
  1,2: injection Hparse as <-;
    apply (frame_content_to_response st content uploaded_file_query st1).
  destruct (records_of _ _) as [records|]; [|discriminate].
  destruct records as [|record records]; injection Hparse as <-.
  - apply (frame_content_to_response st content uploaded_file_query
             (with_selectedRecordIndex 0 (with_csvRecords [] st1))).
  - apply (frame_populateFormWithRecord st record
             (with_selectedRecordIndex 0
                (with_csvRecords (record :: records) st1))).
Qed.

Lemma csv_content_never_refused_witness :
  File.type data_csv = lit "text/csv"
  ∧ (File.size data_csv <= maxSize)%N
  ∧ upload (Some data_csv) (Some two_rows) EvaluationForm.initial_state
    = Some two_rows_uploaded
  ∧ uploadedFile two_rows_uploaded = Some data_csv
  ∧ truthy_opt (errors two_rows_uploaded !! "file") = false
  ∧ isUploading two_rows_uploaded = false
  ∧ eval_metrices (formData two_rows_uploaded)
    = eval_metrices (formData EvaluationForm.initial_state).
Proof.
  assert (Ht : File.type data_csv = lit "text/csv") by reflexivity.
  assert (Hs : (File.size data_csv <= maxSize)%N)
    by (vm_compute; discriminate).
  assert (Hu : upload (Some data_csv) (Some two_rows)
                 EvaluationForm.initial_state = Some two_rows_uploaded)
    by (vm_compute; reflexivity).
  split; [exact Ht|]. split; [exact Hs|]. split; [exact Hu|].
  apply (csv_content_never_refused data_csv two_rows
           EvaluationForm.initial_state two_rows_uploaded Ht Hs Hu).
Defined.

End CsvUpload.

(** ** A reply that comes too late *)

Section LateReply.
Import Api App.

(** X20: a reply that needs 60 seconds or more never reaches the
    application, even when the server answered with a complete result:
    the attempt ends with an error message and no results. A successful
    reply that needs less is shown, with no error. *)
Theorem late_reply_shown_as_error :
  ∀ (latency : N) (reply : Settled EvaluationResponse) (st : AppState),
    (60000 <= latency)%N →
    let st' := handleEvaluationSubmit (evaluate latency reply) st in
    results st' = None
    ∧ (∃ msg, error st' = Some msg ∧ msg ≠ [])
    ∧ isLoading st' = false
    ∧ form_visible st' = true
    ∧ (∀ (early : N) (response : EvaluationResponse),
         (early < 60000)%N →
         let st'' := handleEvaluationSubmit
                       (evaluate early (Resolved response)) st in
         results st'' = Some response ∧ error st'' = None).
Proof.
  intros latency reply st Hlate st'.
  assert (Hev : evaluate latency reply = Thrown timeout_error).
  { unfold evaluate, post, aborted. simpl.
    rewrite (proj2 (N.leb_le 60000 latency)) by exact Hlate. reflexivity. }
  unfold st'. rewrite Hev. simpl. split_and!; try reflexivity.
  - apply error_text_set.
  - intros early response Hearly.
    assert (Hok : evaluate early (Resolved response) = Resolved response).
    { unfold evaluate, post, aborted. simpl.
      rewrite (proj2 (N.leb_gt 60000 early)) by exact Hearly. reflexivity. }
    rewrite Hok. simpl. split; reflexivity.
Qed.

Lemma late_reply_shown_as_error_witness :
  (60000 <= 120000)%N
  ∧ (let st' := handleEvaluationSubmit
                  (evaluate 120000 (Resolved Fixtures.sample_response))
                  App.initial_state in
     results st' = None
     ∧ (∃ msg, error st' = Some msg ∧ msg ≠ [])
     ∧ isLoading st' = false
     ∧ form_visible st' = true
     ∧ (∀ (early : N) (response : EvaluationResponse),
          (early < 60000)%N →
          let st'' := handleEvaluationSubmit
                        (evaluate early (Resolved response))
                        App.initial_state in
          results st'' = Some response ∧ error st'' = None)).
Proof.
  assert (H : (60000 <= 120000)%N) by (vm_compute; discriminate).
  split; [exact H|].
  apply (late_reply_shown_as_error 120000
           (Resolved Fixtures.sample_response) App.initial_state H).
Defined.

End LateReply.
